(** * Azurite persistence substrate: extent metadata catalog and
      blob service properties.

    Shallow embedding of
      - [src/common/persistence/LokiExtentMetadata.ts] (the extent catalog
        on top of a LokiJS collection), and
      - the blob [ServiceHandler] ([setProperties] / [getProperties]).

    JavaScript numbers are modelled as [Z]: every number the catalog
    handles is an integral count, sequence number or millisecond
    timestamp.  A rejected promise / thrown exception is an explicit
    [Throw] in a small error monad. *)

From Stdlib Require Import ZArith List Bool String Sorted Lia.
From stdpp Require Import base option list sorting strings gmap.

Local Open Scope string_scope.
Local Open Scope list_scope.
Local Open Scope Z_scope.

(* ===================================================================== *)
(** * Errors and results                                                  *)
(* ===================================================================== *)

(** Error kinds.  [TypeError] is the JavaScript runtime error raised by a
    property access on [null] / [undefined]; it is the only error the
    catalog operations can raise by themselves.  [IOError] stands for an
    error handed to a callback by the document store ([loadDatabase],
    [saveDatabase], [close]).  [NotFound], [NotInitialized] and [Closed]
    are the catalog error kinds of the specification (section 7). *)
Inductive error : Set :=
| TypeError
| IOError
| NotFound
| NotInitialized
| Closed.

Inductive result (A : Type) : Type :=
| Ok (a : A)
| Throw (e : error).
Arguments Ok {A} a.
Arguments Throw {A} e.

Definition rbind {A B : Type} (c : result A) (k : A -> result B) : result B :=
  match c with
  | Ok a => k a
  | Throw e => Throw e
  end.

#[global] Instance result_ret : MRet result := fun _ a => Ok a.
#[global] Instance result_bind : MBind result := fun _ _ k c => rbind c k.

(* ===================================================================== *)
(** * The document store (LokiJS collection)                              *)
(* ===================================================================== *)

(** LokiJS is a dependency of the repository.  The definitions of this
    section model the calls the catalog makes on one of its collections:
    [findOne], [insert], [update], [findAndRemove] and
    [chain().find().limit().data()]. *)

Module Extent.
(** Modelled from the spec: the declaration of [IExtentModel]
    ([IExtentMetadata.ts]) is not among the sources.  [id], [size],
    [LastModifyInMS] and [persistencyId] are the members the catalog
    code reads and writes; [persistencyId] is the specification's
    destination id and [path] its relative path. *)
Record IExtentModel : Set := {
  id : string;
  persistencyId : string;
  path : string;
  size : Z;
  LastModifyInMS : Z
}.
End Extent.
Abbreviation IExtentModel := Extent.IExtentModel.

Module Loki.

(** A stored document: the inserted object together with the sequence
    number [$loki] the collection gave it.  An [IExtentModel] carries no
    [$loki] of its own, so [insert] never refuses it as already stored. *)
Record Doc : Set := {
  obj : IExtentModel;
  loki : Z
}.

(** A collection: its documents in insertion order and the last sequence
    number handed out. *)
Record Collection : Set := {
  data : list Doc;
  maxId : Z
}.

Definition addCollection : Collection := {| data := []; maxId := 0 |}.

(** The query objects the catalog builds.  A key that was never set is
    [None]; [q_loki_gt = Some None] is the query [{ $loki: { $gt:
    undefined } }]. *)
Record Query : Set := {
  q_id : option string;
  q_LastModifyInMS_lt : option Z;
  q_loki_gt : option (option Z)
}.

(** [$gt] of a number against a number or [undefined].  LokiJS ranks
    [undefined] below every number, so every document passes. *)
Definition op_gt (a : Z) (b : option Z) : bool :=
  match b with
  | None => true
  | Some b => b <? a
  end.

Definition op_lt (a b : Z) : bool := a <? b.

Definition opt_test {A : Type} (o : option A) (test : A -> bool) : bool :=
  match o with
  | None => true
  | Some x => test x
  end.

(** Several keys in one query object are an implicit [$and].  The
    result set keeps the order of [data]; the binary index on [id] only
    serves the lookup of the (single) document with a given id. *)
Definition matches (q : Query) (d : Doc) : bool :=
  opt_test (q_id q) (fun i => String.eqb (Extent.id (obj d)) i)
  && opt_test (q_LastModifyInMS_lt q)
       (fun t => op_lt (Extent.LastModifyInMS (obj d)) t)
  && opt_test (q_loki_gt q) (fun m => op_gt (loki d) m).

Definition find (q : Query) (c : Collection) : list Doc :=
  List.filter (matches q) (data c).

Definition findOne (q : Query) (c : Collection) : option Doc :=
  head (find q c).

(** [Array.prototype.slice(0, qty)], as used by [Resultset.limit]. *)
Definition slice0 {A : Type} (qty : Z) (l : list A) : list A :=
  if qty <? 0
  then firstn (Z.to_nat (Z.of_nat (length l) + qty)) l
  else firstn (Z.to_nat qty) l.

Definition limit (qty : Z) (l : list Doc) : list Doc := slice0 qty l.

(** [insert]: the next sequence number is assigned and the document is
    appended. *)
Definition insert (e : IExtentModel) (c : Collection) : Collection :=
  {| data := data c ++ [ {| obj := e; loki := maxId c + 1 |} ];
     maxId := maxId c + 1 |}.

(** [update]: the document with the same [$loki] is replaced in place. *)
Definition update (d : Doc) (c : Collection) : Collection :=
  {| data := map (fun x => if loki x =? loki d then d else x) (data c);
     maxId := maxId c |}.

(** [findAndRemove]: every matching document is removed; sequence
    numbers are never reused. *)
Definition findAndRemove (q : Query) (c : Collection) : Collection :=
  {| data := List.filter (fun d => negb (matches q d)) (data c);
     maxId := maxId c |}.

Definition byId (i : string) : Query :=
  {| q_id := Some i; q_LastModifyInMS_lt := None; q_loki_gt := None |}.

End Loki.

(* ===================================================================== *)
(** * LokiExtentMetadata                                                  *)
(* ===================================================================== *)

(** The object state: the collection [db.getCollection(EXTENTS_COLLECTION)]
    ([None] is [null]: no such collection in the database) and the two
    private flags. *)
Record LokiExtentMetadata : Set := {
  db : option Loki.Collection;
  initialized : bool;
  closed : bool
}.

Definition constructor : LokiExtentMetadata :=
  {| db := None; initialized := false; closed := false |}.

Definition isInitialized (this : LokiExtentMetadata) : bool := initialized this.
Definition isClosed (this : LokiExtentMetadata) : bool := closed this.

Definition set_db (this : LokiExtentMetadata) (c : Loki.Collection)
  : LokiExtentMetadata :=
  {| db := Some c; initialized := initialized this; closed := closed this |}.

(** What [stat] and [loadDatabase] find on disk. *)
Inductive LoadOutcome : Set :=
| NoFile                                   (* statError: file is absent *)
| Loaded (c : option Loki.Collection)      (* database read from the file *)
| LoadFailed.                              (* dbError *)

(** [init] and [close] return the object state they leave behind together
    with the outcome of the promise: a rejected [init] that got as far as
    [addCollection] leaves the collection in the database. *)
Definition init (disk : LoadOutcome) (saveOk : bool) (this : LokiExtentMetadata)
  : LokiExtentMetadata * result unit :=
  match disk with
  | LoadFailed => (this, Throw IOError)
  | NoFile | Loaded _ =>
      let loaded := match disk with
                    | Loaded c => c
                    | _ => db this
                    end in
      let coll := match loaded with
                  | None => Loki.addCollection
                  | Some c => c
                  end in
      if saveOk
      then ({| db := Some coll; initialized := true; closed := false |}, Ok tt)
      else (set_db this coll, Throw IOError)
  end.

(** [db.close] stops the autosave timer and saves; the collections stay
    in memory. *)
Definition close (closeOk : bool) (this : LokiExtentMetadata)
  : LokiExtentMetadata * result unit :=
  if closeOk
  then ({| db := db this; initialized := initialized this; closed := true |},
        Ok tt)
  else (this, Throw IOError).

(** A method call on the collection; the receiver may be [null]. *)
Definition getCollection (this : LokiExtentMetadata) : result Loki.Collection :=
  match db this with
  | Some c => Ok c
  | None => Throw TypeError
  end.

Definition updateExtent (extent : IExtentModel) (this : LokiExtentMetadata)
  : result LokiExtentMetadata :=
  coll ← getCollection this;
  match Loki.findOne (Loki.byId (Extent.id extent)) coll with
  | None => Ok (set_db this (Loki.insert extent coll))
  | Some doc =>
      let doc' :=
        {| Loki.obj :=
             {| Extent.id := Extent.id (Loki.obj doc);
                Extent.persistencyId := Extent.persistencyId (Loki.obj doc);
                Extent.path := Extent.path (Loki.obj doc);
                Extent.size := Extent.size extent;
                Extent.LastModifyInMS := Extent.LastModifyInMS extent |};
           Loki.loki := Loki.loki doc |} in
      Ok (set_db this (Loki.update doc' coll))
  end.

Definition listExtents_query (id : option string) (marker : option Z)
    (queryTime : option Z) (UnmodifiedTime : option Z) : Loki.Query :=
  let UnmodifiedTime := default 0 UnmodifiedTime in
  {| Loki.q_id := id;
     Loki.q_LastModifyInMS_lt :=
       match queryTime with
       | Some getTime => Some (getTime - UnmodifiedTime * 1000)
       | None => None
       end;
     Loki.q_loki_gt := Some marker |}.

(** [queryTime] is given by its [getTime()] value in milliseconds.  The
    threshold is an integer difference here and a difference of doubles
    in the code; the two agree on the integers JavaScript represents
    exactly (see [age_filter_exact] below). *)
Definition listExtents (id : option string) (maxResults : option Z)
    (marker : option Z) (queryTime : option Z) (UnmodifiedTime : option Z)
    (this : LokiExtentMetadata) : result (list Loki.Doc * option Z) :=
  let query := listExtents_query id marker queryTime UnmodifiedTime in
  let maxResults := default 5000 maxResults in
  coll ← getCollection this;
  let docs := Loki.limit maxResults (Loki.find query coll) in
  if Z.of_nat (length docs) <? maxResults
  then Ok (docs, None)
  else
    match last docs with
    | None => Throw TypeError          (* docs[-1].$loki *)
    | Some d => Ok (docs, Some (Loki.loki d))
    end.

Definition deleteExtent (extentId : string) (this : LokiExtentMetadata)
  : result LokiExtentMetadata :=
  coll ← getCollection this;
  Ok (set_db this (Loki.findAndRemove (Loki.byId extentId) coll)).

Definition getExtentPersistencyId (extentId : string) (this : LokiExtentMetadata)
  : result string :=
  coll ← getCollection this;
  match Loki.findOne (Loki.byId extentId) coll with
  | None => Throw TypeError            (* null.persistencyId *)
  | Some doc => Ok (Extent.persistencyId (Loki.obj doc))
  end.

(** Modelled from the spec: the paging loop of the catalog's callers is
    not among the sources.  Following P6, the first call passes no
    marker, every further call passes the [nextMarker] of the previous
    page, and the pages are concatenated until no [nextMarker] comes
    back.  [fuel] bounds the number of calls; the outer [None] means the
    bound was reached before the enumeration ended. *)
Fixpoint listAllPages (fuel : nat) (id : option string) (maxResults : option Z)
    (marker : option Z) (queryTime : option Z) (UnmodifiedTime : option Z)
    (this : LokiExtentMetadata) : option (result (list Loki.Doc)) :=
  match fuel with
  | O => None
  | S fuel' =>
      match listExtents id maxResults marker queryTime UnmodifiedTime this with
      | Throw e => Some (Throw e)
      | Ok (docs, None) => Some (Ok docs)
      | Ok (docs, Some nextMarker) =>
          match listAllPages fuel' id maxResults (Some nextMarker)
                  queryTime UnmodifiedTime this with
          | Some (Ok rest) => Some (Ok (docs ++ rest))
          | other => other
          end
      end
  end.

(* ===================================================================== *)
(** * Blob service properties                                             *)
(* ===================================================================== *)

(** Modelled from the spec: the generated protocol models
    ([generated/artifacts/models]) are not among the sources.  The
    records below carry the members that [defaultServiceProperties]
    spells out; the handler never looks inside them. *)
Module RetentionPolicy.
Record t : Set := { enabled : bool }.
End RetentionPolicy.

Module Metrics.
Record t : Set := {
  enabled : bool;
  retentionPolicy : RetentionPolicy.t;
  version : string
}.
End Metrics.

Module Logging.
Record t : Set := {
  deleteProperty : bool;
  read : bool;
  retentionPolicy : RetentionPolicy.t;
  version : string;
  write : bool
}.
End Logging.

Module StaticWebsite.
Record t : Set := { enabled : bool }.
End StaticWebsite.

Module CorsRule.
Record t : Set := {
  allowedOrigins : string;
  allowedMethods : string;
  allowedHeaders : string;
  exposedHeaders : string;
  maxAgeInSeconds : Z
}.
End CorsRule.

(** The request body of Set Blob Service Properties: every member is
    optional ([None] is [undefined]). *)
Module StorageServiceProperties.
Record t : Set := {
  cors : option (list CorsRule.t);
  defaultServiceVersion : option string;
  deleteRetentionPolicy : option RetentionPolicy.t;
  hourMetrics : option Metrics.t;
  logging : option Logging.t;
  minuteMetrics : option Metrics.t;
  staticWebsite : option StaticWebsite.t
}.
End StorageServiceProperties.

(** The stored document: the service properties of one account. *)
Module ServicePropertiesModel.
Record t : Set := {
  accountName : string;
  cors : option (list CorsRule.t);
  defaultServiceVersion : option string;
  deleteRetentionPolicy : option RetentionPolicy.t;
  hourMetrics : option Metrics.t;
  logging : option Logging.t;
  minuteMetrics : option Metrics.t;
  staticWebsite : option StaticWebsite.t
}.
End ServicePropertiesModel.

Module ServiceGetPropertiesResponse.
Record t : Set := {
  accountName : string;
  cors : option (list CorsRule.t);
  defaultServiceVersion : option string;
  deleteRetentionPolicy : option RetentionPolicy.t;
  hourMetrics : option Metrics.t;
  logging : option Logging.t;
  minuteMetrics : option Metrics.t;
  staticWebsite : option StaticWebsite.t;
  requestId : string;
  statusCode : Z;
  version : string
}.
End ServiceGetPropertiesResponse.

Module ServiceSetPropertiesResponse.
Record t : Set := {
  requestId : string;
  statusCode : Z;
  version : string
}.
End ServiceSetPropertiesResponse.

Module SSP := StorageServiceProperties.
Module SPM := ServicePropertiesModel.

(** Modelled from the spec: the blob metadata store ([IBlobDataStore]) is
    not among the sources.  Service properties are "stored as a single
    document keyed by account name", with the operations [get(account)]
    and [upsert(properties)]. *)
Definition getServiceProperties (account : string)
    (dataStore : gmap string SPM.t) : option SPM.t :=
  dataStore !! account.

Definition updateServiceProperties (p : SPM.t)
    (dataStore : gmap string SPM.t) : gmap string SPM.t :=
  <[SPM.accountName p := p]> dataStore.

(** JavaScript [a || b]: an object is always truthy, a string is falsy
    exactly when it is empty, [undefined] is falsy. *)
Definition js_or {A : Type} (a b : option A) : option A :=
  match a with
  | Some x => Some x
  | None => b
  end.

Definition js_or_string (a b : option string) : option string :=
  match a with
  | Some s => if String.eqb s "" then b else Some s
  | None => b
  end.

(** [parsedBody.hasOwnProperty(k)], the parsed body given by its keys. *)
Definition hasOwnProperty (parsedBody : list string) (k : string) : bool :=
  existsb (String.eqb k) parsedBody.

Section ServiceHandler.

(** The emulator's API version ([utils/constants], not among the
    sources). *)
Variable BLOB_API_VERSION : string.

Definition defaultServiceProperties (accountName : string) : SPM.t :=
  {| SPM.accountName := accountName;
     SPM.cors := Some [];
     SPM.defaultServiceVersion := Some BLOB_API_VERSION;
     SPM.deleteRetentionPolicy := None;
     SPM.hourMetrics :=
       Some {| Metrics.enabled := false;
               Metrics.retentionPolicy := {| RetentionPolicy.enabled := false |};
               Metrics.version := "1.0" |};
     SPM.logging :=
       Some {| Logging.deleteProperty := true;
               Logging.read := true;
               Logging.retentionPolicy := {| RetentionPolicy.enabled := false |};
               Logging.version := "1.0";
               Logging.write := true |};
     SPM.minuteMetrics :=
       Some {| Metrics.enabled := false;
               Metrics.retentionPolicy := {| RetentionPolicy.enabled := false |};
               Metrics.version := "1.0" |};
     SPM.staticWebsite := Some {| StaticWebsite.enabled := false |} |}.

(** The merge computed by [setProperties] before it is written back. *)
Definition mergeProperties (storageServiceProperties : SSP.t)
    (parsedBody : list string) (properties : SPM.t) (accountName : string)
  : SPM.t :=
  let req_cors :=
    if negb (hasOwnProperty parsedBody "cors")
       && negb (hasOwnProperty parsedBody "Cors")
    then None
    else SSP.cors storageServiceProperties in
  {| SPM.accountName := accountName;
     SPM.cors :=
       match req_cors with
       | None => SPM.cors properties
       | Some c => Some c
       end;
     SPM.defaultServiceVersion :=
       js_or_string (SSP.defaultServiceVersion storageServiceProperties)
                    (SPM.defaultServiceVersion properties);
     SPM.deleteRetentionPolicy :=
       js_or (SSP.deleteRetentionPolicy storageServiceProperties)
             (SPM.deleteRetentionPolicy properties);
     SPM.hourMetrics :=
       js_or (SSP.hourMetrics storageServiceProperties)
             (SPM.hourMetrics properties);
     SPM.logging :=
       js_or (SSP.logging storageServiceProperties) (SPM.logging properties);
     SPM.minuteMetrics :=
       js_or (SSP.minuteMetrics storageServiceProperties)
             (SPM.minuteMetrics properties);
     SPM.staticWebsite :=
       js_or (SSP.staticWebsite storageServiceProperties)
             (SPM.staticWebsite properties) |}.

(** [setProperties]: [parsedBody] is the result of [parseXML] on the
    request body, [contextID] the id of the request context. *)
Definition setProperties (storageServiceProperties : SSP.t)
    (parsedBody : list string) (accountName contextID : string)
    (dataStore : gmap string SPM.t)
  : gmap string SPM.t * ServiceSetPropertiesResponse.t :=
  let properties :=
    match getServiceProperties accountName dataStore with
    | None => defaultServiceProperties accountName
    | Some p => p
    end in
  (updateServiceProperties
     (mergeProperties storageServiceProperties parsedBody properties accountName)
     dataStore,
   {| ServiceSetPropertiesResponse.requestId := contextID;
      ServiceSetPropertiesResponse.statusCode := 202;
      ServiceSetPropertiesResponse.version := BLOB_API_VERSION |}).

Definition getProperties (accountName contextID : string)
    (dataStore : gmap string SPM.t) : ServiceGetPropertiesResponse.t :=
  let properties :=
    match getServiceProperties accountName dataStore with
    | None => defaultServiceProperties accountName
    | Some p => p
    end in
  let cors :=
    match SPM.cors properties with
    | None => Some []
    | Some c => Some c
    end in
  {| ServiceGetPropertiesResponse.accountName := SPM.accountName properties;
     ServiceGetPropertiesResponse.cors := cors;
     ServiceGetPropertiesResponse.defaultServiceVersion :=
       SPM.defaultServiceVersion properties;
     ServiceGetPropertiesResponse.deleteRetentionPolicy :=
       SPM.deleteRetentionPolicy properties;
     ServiceGetPropertiesResponse.hourMetrics := SPM.hourMetrics properties;
     ServiceGetPropertiesResponse.logging := SPM.logging properties;
     ServiceGetPropertiesResponse.minuteMetrics := SPM.minuteMetrics properties;
     ServiceGetPropertiesResponse.staticWebsite := SPM.staticWebsite properties;
     ServiceGetPropertiesResponse.requestId := contextID;
     ServiceGetPropertiesResponse.statusCode := 200;
     ServiceGetPropertiesResponse.version := BLOB_API_VERSION |}.

(** One [setProperties] request, and the store after a sequence of
    them. *)
Record SetRequest : Set := {
  req_account : string;
  req_body : SSP.t;
  req_parsedBody : list string;
  req_contextID : string
}.

Definition runSetProperties (reqs : list SetRequest)
    (dataStore : gmap string SPM.t) : gmap string SPM.t :=
  fold_left
    (fun st r =>
       fst (setProperties (req_body r) (req_parsedBody r) (req_account r)
              (req_contextID r) st))
    reqs dataStore.

End ServiceHandler.

(** ** Listing containers *)

(** The members of the request options that [listContainersSegment]
    reads. *)
Module ServiceListContainersSegmentOptionalParams.
Record t : Set := {
  prefix : option string;
  marker : option string;
  maxresults : option Z
}.
End ServiceListContainersSegmentOptionalParams.

Module ServiceListContainersSegmentResponse.
Record t (ContainerItem : Type) : Type := {
  containerItems : list ContainerItem;
  maxResults : Z;
  nextMarker : string;
  prefix : string;
  serviceEndpoint : string;
  statusCode : Z;
  requestId : string;
  version : string
}.
Arguments containerItems {ContainerItem} _.
Arguments maxResults {ContainerItem} _.
Arguments nextMarker {ContainerItem} _.
Arguments prefix {ContainerItem} _.
Arguments serviceEndpoint {ContainerItem} _.
Arguments statusCode {ContainerItem} _.
Arguments requestId {ContainerItem} _.
Arguments version {ContainerItem} _.
End ServiceListContainersSegmentResponse.

Module LCO := ServiceListContainersSegmentOptionalParams.
Module LCR := ServiceListContainersSegmentResponse.

(** JavaScript [a || b] with a number or a string on the left: [0] and
    the empty string are falsy, like [undefined]. *)
Definition js_or_number (a : option Z) (b : Z) : Z :=
  match a with
  | Some n => if n =? 0 then b else n
  | None => b
  end.

Definition js_or_text (a : option string) (b : string) : string :=
  match a with
  | Some s => if String.eqb s "" then b else s
  | None => b
  end.

Definition LIST_CONTAINERS_MAX_RESULTS_DEFAULT : Z := 2000.

Section ListContainers.

(** The emulator's API version ([utils/constants]). *)
Variable BLOB_API_VERSION : string.

(** The container records of the metadata store ([ContainerModel], not
    among the sources) and its [listContainers(account, prefix,
    maxResults, marker)] at the time of the call, which answers with the
    items of the page and the marker of the next one, if any. *)
Variable ContainerItem : Type.
Variable listContainers :
  string -> string -> Z -> option Z -> list ContainerItem * option Z.

(** The built-ins [parseInt(s, 10)] ([None] is [NaN]) and the conversion
    of a number to text in a template literal. *)
Variable parseInt : string -> option Z.
Variable numberToString : Z -> string.

(** [endpoint] is [request.getEndpoint()]. *)
Definition listContainersSegment (options : LCO.t)
    (endpoint accountName contextID : string) : LCR.t ContainerItem :=
  let maxresults :=
    js_or_number (LCO.maxresults options) LIST_CONTAINERS_MAX_RESULTS_DEFAULT in
  let prefix := js_or_text (LCO.prefix options) "" in
  let marker := parseInt (js_or_text (LCO.marker options) "0") in
  let containers := listContainers accountName prefix maxresults marker in
  {| LCR.containerItems := fst containers;
     LCR.maxResults := maxresults;
     LCR.nextMarker :=
       match snd containers with
       | Some n => if n =? 0 then "" else numberToString n
       | None => ""
       end;
     LCR.prefix := prefix;
     LCR.serviceEndpoint := (endpoint ++ "/" ++ accountName)%string;
     LCR.statusCode := 200;
     LCR.requestId := contextID;
     LCR.version := BLOB_API_VERSION |}.

End ListContainers.

(* ===================================================================== *)
(** * Catalog invariant and specification-side predicates                 *)
(* ===================================================================== *)

Definition doc_id (d : Loki.Doc) : string := Extent.id (Loki.obj d).

Definition loki_lt (a b : Loki.Doc) : Prop := Loki.loki a < Loki.loki b.

(** The shape of every collection built through the catalog: sequence
    numbers strictly increase along [data], lie in [1 .. maxId], and no
    two documents share an extent id. *)
Definition wf (c : Loki.Collection) : Prop :=
  StronglySorted loki_lt (Loki.data c)
  /\ 0 <= Loki.maxId c
  /\ Forall (fun d => 1 <= Loki.loki d <= Loki.maxId c) (Loki.data c)
  /\ NoDup (map doc_id (Loki.data c)).

(** One call on the catalog object.  A database file that [init] loads
    was written by an earlier run, so the collection in it is well
    formed. *)
Inductive step : LokiExtentMetadata -> LokiExtentMetadata -> Prop :=
| step_init disk saveOk this :
    (forall c, disk = Loaded (Some c) -> wf c) ->
    step this (fst (init disk saveOk this))
| step_close closeOk this :
    step this (fst (close closeOk this))
| step_updateExtent e this this' :
    updateExtent e this = Ok this' -> step this this'
| step_deleteExtent extentId this this' :
    deleteExtent extentId this = Ok this' -> step this this'.

Definition reachable (this : LokiExtentMetadata) : Prop :=
  rtc step constructor this.

(** The list filter in the words of the specification: optional exact
    id, optional age threshold [queryTime - unmodifiedSeconds * 1000]
    (strict), optional lower bound on the sequence number (strict). *)
Definition selected (id : option string) (marker : option Z)
    (queryTime : option Z) (UnmodifiedTime : option Z) (d : Loki.Doc) : Prop :=
  (forall i, id = Some i -> doc_id d = i)
  /\ (forall t, queryTime = Some t ->
        Extent.LastModifyInMS (Loki.obj d) < t - default 0 UnmodifiedTime * 1000)
  /\ (forall m, marker = Some m -> m < Loki.loki d).

(** The record [updateExtent] leaves for an extent that was already
    catalogued. *)
Definition touch (e : IExtentModel) (d : Loki.Doc) : Loki.Doc :=
  {| Loki.obj :=
       {| Extent.id := doc_id d;
          Extent.persistencyId := Extent.persistencyId (Loki.obj d);
          Extent.path := Extent.path (Loki.obj d);
          Extent.size := Extent.size e;
          Extent.LastModifyInMS := Extent.LastModifyInMS e |};
     Loki.loki := Loki.loki d |}.

(** Every record the list filter selects when no marker is given: what a
    complete enumeration has to deliver. *)
Definition unpaged (id : option string) (queryTime UnmodifiedTime : option Z)
    (coll : Loki.Collection) : list Loki.Doc :=
  Loki.find (listExtents_query id None queryTime UnmodifiedTime) coll.

(** What "supplied replaces, unsupplied is preserved" means for one
    member of the document. *)
Definition replaces_or_keeps {A : Type} (supplied stored result : option A)
  : Prop :=
  match supplied with
  | Some v => result = Some v
  | None => result = stored
  end.

Definition sampleRule : CorsRule.t :=
  {| CorsRule.allowedOrigins := "*"; CorsRule.allowedMethods := "GET";
     CorsRule.allowedHeaders := "*"; CorsRule.exposedHeaders := "*";
     CorsRule.maxAgeInSeconds := 60 |}.

Definition storedDoc : SPM.t :=
  {| SPM.accountName := "devstoreaccount1";
     SPM.cors := Some [sampleRule];
     SPM.defaultServiceVersion := Some "2018-03-28";
     SPM.deleteRetentionPolicy := None;
     SPM.hourMetrics := None;
     SPM.logging := None;
     SPM.minuteMetrics := None;
     SPM.staticWebsite := None |}.

Definition blankVersionRequest : SSP.t :=
  {| SSP.cors := None; SSP.defaultServiceVersion := Some "";
     SSP.deleteRetentionPolicy := None; SSP.hourMetrics := None;
     SSP.logging := None; SSP.minuteMetrics := None;
     SSP.staticWebsite := None |}.

Definition otherAccountRequest : SetRequest :=
  {| req_account := "other"; req_body := blankVersionRequest;
     req_parsedBody := ["Cors"]; req_contextID := "ctx-0" |}.

(** ** Numbers

    The catalog's numbers are modelled as integers, JavaScript's are IEEE
    doubles.  An integer of magnitude at most [2^53] is a double, and a
    sum, difference or product of such integers is computed exactly as
    long as it stays in that range; outside it the age threshold
    [queryTime.getTime() - UnmodifiedTime * 1000] of [listExtents] is
    rounded and the integer model no longer gives the value the code
    compares with.  Statements that depend on the value of the threshold
    therefore assume [age_filter_exact]. *)
Definition exact_in_double (z : Z) : Prop := - 2 ^ 53 <= z <= 2 ^ 53.

Definition age_filter_exact (queryTime UnmodifiedTime : option Z)
    (coll : Loki.Collection) : Prop :=
  forall getTime, queryTime = Some getTime ->
    exact_in_double getTime
    /\ exact_in_double (default 0 UnmodifiedTime * 1000)
    /\ exact_in_double (getTime - default 0 UnmodifiedTime * 1000)
    /\ (forall d, In d (Loki.data coll) ->
          exact_in_double (Extent.LastModifyInMS (Loki.obj d))).

(** ** Enumerating while the catalog changes

    The process is single threaded and a caller suspends between two
    pages, so other requests can update and delete extents between the
    calls of one enumeration. *)
Inductive CatalogOp : Set :=
| OpUpdateExtent (extent : IExtentModel)
| OpDeleteExtent (extentId : string).

Definition op_id (op : CatalogOp) : string :=
  match op with
  | OpUpdateExtent extent => Extent.id extent
  | OpDeleteExtent extentId => extentId
  end.

(** An operation of another request: its failure is that request's, the
    catalog stays as it was. *)
Definition runOp (op : CatalogOp) (this : LokiExtentMetadata)
  : LokiExtentMetadata :=
  match match op with
        | OpUpdateExtent extent => updateExtent extent this
        | OpDeleteExtent extentId => deleteExtent extentId this
        end with
  | Ok this' => this'
  | Throw _ => this
  end.

Definition runOps (ops : list CatalogOp) (this : LokiExtentMetadata)
  : LokiExtentMetadata :=
  fold_left (fun s op => runOp op s) ops this.

(** Modelled from the spec: the paging loop of [listAllPages], with the
    operations of other requests that run between its calls.  [between]
    lists, page by page, the operations that run after a page was
    returned and before the next call; a list that runs out means that
    nothing else happens. *)
Fixpoint listAllPagesDuring (fuel : nat) (between : list (list CatalogOp))
    (id : option string) (maxResults : option Z) (marker : option Z)
    (queryTime : option Z) (UnmodifiedTime : option Z)
    (this : LokiExtentMetadata) : option (result (list Loki.Doc)) :=
  match fuel with
  | O => None
  | S fuel' =>
      match listExtents id maxResults marker queryTime UnmodifiedTime this with
      | Throw e => Some (Throw e)
      | Ok (docs, None) => Some (Ok docs)
      | Ok (docs, Some nextMarker) =>
          match listAllPagesDuring fuel' (tail between) id maxResults
                  (Some nextMarker) queryTime UnmodifiedTime
                  (runOps (hd [] between) this) with
          | Some (Ok rest) => Some (Ok (docs ++ rest))
          | other => other
          end
      end
  end.

(** No operation that runs during the enumeration names the record's
    extent. *)
Definition untouched (d : Loki.Doc) (between : list (list CatalogOp)) : Prop :=
  forall ops, In ops between -> forall op, In op ops -> op_id op <> doc_id d.

(** The members every document written by [setProperties] has. *)
Definition settled (account : string) (p : SPM.t) : Prop :=
  SPM.accountName p = account
  /\ is_Some (SPM.cors p)
  /\ is_Some (SPM.defaultServiceVersion p)
  /\ is_Some (SPM.hourMetrics p)
  /\ is_Some (SPM.logging p)
  /\ is_Some (SPM.minuteMetrics p)
  /\ is_Some (SPM.staticWebsite p).

(** Sample data. *)
Definition extent1 : IExtentModel :=
  {| Extent.id := "e1"; Extent.persistencyId := "d1"; Extent.path := "p1";
     Extent.size := 0; Extent.LastModifyInMS := 100 |}.

Definition extent2 : IExtentModel :=
  {| Extent.id := "e2"; Extent.persistencyId := "d1"; Extent.path := "p2";
     Extent.size := 7; Extent.LastModifyInMS := 200 |}.

Definition extent1_moved : IExtentModel :=
  {| Extent.id := "e1"; Extent.persistencyId := "d2"; Extent.path := "q1";
     Extent.size := 11; Extent.LastModifyInMS := 300 |}.

Definition coll12 : Loki.Collection :=
  Loki.insert extent2 (Loki.insert extent1 Loki.addCollection).

Definition catalog0 : LokiExtentMetadata := fst (init NoFile true constructor).
Definition catalog12 : LokiExtentMetadata := set_db catalog0 coll12.

(** Twelve extents [A] .. [L], inserted one after the other into a fresh
    catalog (the list-pagination scenario, scaled from 12000 records with
    page limit 5000 to 12 records with page limit 5). *)
Definition extentNo (k : nat) : IExtentModel :=
  {| Extent.id := String (Ascii.ascii_of_nat (65 + k)) EmptyString;
     Extent.persistencyId := "d1";
     Extent.path := String (Ascii.ascii_of_nat (65 + k)) EmptyString;
     Extent.size := 0;
     Extent.LastModifyInMS := Z.of_nat k |}.

Definition catalogTwelve : LokiExtentMetadata :=
  fold_left
    (fun this k =>
       match updateExtent (extentNo k) this with
       | Ok this' => this'
       | Throw _ => this
       end)
    (seq 0 12) catalog0.

Definition extent3 : IExtentModel :=
  {| Extent.id := "e3"; Extent.persistencyId := "d2"; Extent.path := "p3";
     Extent.size := 3; Extent.LastModifyInMS := 400 |}.

(* ===================================================================== *)
(** * Document store lemmas                                               *)
(* ===================================================================== *)

Section LokiFacts.
Import Loki.

Lemma matches_byId i d : matches (byId i) d = String.eqb (doc_id d) i.
Proof.
  unfold matches, byId, doc_id; simpl.
  now rewrite !andb_true_r.
Qed.

Lemma find_byId_nil i c :
  find (byId i) c = [] <-> (forall d, In d (data c) -> doc_id d <> i).
Proof.
  unfold find. split.
  - intros Hnil d Hin Heq.
    assert (Hd : In d (List.filter (matches (byId i)) (data c))).
    { apply filter_In. split; [exact Hin|].
      rewrite matches_byId. now apply String.eqb_eq. }
    rewrite Hnil in Hd. destruct Hd.
  - intros Hall.
    induction (data c) as [|x l IH]; [reflexivity|].
    simpl. rewrite matches_byId.
    destruct (String.eqb (doc_id x) i) eqn:E.
    + apply String.eqb_eq in E. exfalso. apply (Hall x); [now left|exact E].
    + apply IH. intros d Hd. apply Hall. now right.
Qed.

Lemma findOne_None i c :
  findOne (byId i) c = None <-> (forall d, In d (data c) -> doc_id d <> i).
Proof.
  unfold findOne. rewrite <- find_byId_nil.
  destruct (find (byId i) c); simpl; split; congruence.
Qed.

Lemma findOne_Some_In i c d :
  findOne (byId i) c = Some d -> In d (data c) /\ doc_id d = i.
Proof.
  unfold findOne, find. intros H.
  destruct (List.filter (matches (byId i)) (data c)) as [|x l] eqn:E;
    [discriminate|].
  simpl in H. injection H as ->.
  assert (Hd : In d (List.filter (matches (byId i)) (data c))).
  { rewrite E. now left. }
  apply filter_In in Hd. destruct Hd as [Hin Hm].
  rewrite matches_byId in Hm. apply String.eqb_eq in Hm. now split.
Qed.

(** With unique ids, the document found by id is the one stored. *)
Lemma findOne_unique i l mx d :
  NoDup (map doc_id l) -> In d l -> doc_id d = i ->
  findOne (byId i) {| data := l; maxId := mx |} = Some d.
Proof.
  unfold findOne, find; simpl.
  induction l as [|x l IH]; intros Hnd Hin Hid; [destruct Hin|].
  simpl. rewrite matches_byId.
  apply NoDup_cons in Hnd. destruct Hnd as [Hx Hnd].
  destruct Hin as [->|Hin].
  - rewrite Hid, String.eqb_refl. reflexivity.
  - destruct (String.eqb (doc_id x) i) eqn:E.
    + apply String.eqb_eq in E. exfalso. apply Hx.
      rewrite list_elem_of_In. apply in_map_iff. exists d. split; [congruence|exact Hin].
    + now apply IH.
Qed.

Lemma sorted_loki_inj l x y :
  StronglySorted loki_lt l -> In x l -> In y l -> loki x = loki y -> x = y.
Proof.
  induction 1 as [|a l Hs IH Hall]; intros Hx Hy E; [destruct Hx|].
  rewrite List.Forall_forall in Hall.
  destruct Hx as [<-|Hx], Hy as [<-|Hy]; auto.
  - apply Hall in Hy. unfold loki_lt in Hy. lia.
  - apply Hall in Hx. unfold loki_lt in Hx. lia.
Qed.

Lemma nodup_id_inj l x y :
  NoDup (map doc_id l) -> In x l -> In y l -> doc_id x = doc_id y -> x = y.
Proof.
  induction l as [|a l IH]; simpl; intros Hnd Hx Hy E; [destruct Hx|].
  apply NoDup_cons in Hnd. destruct Hnd as [Ha Hnd].
  assert (Hin : forall z, In z l -> doc_id a <> doc_id z).
  { intros z Hz Heq. apply Ha. rewrite list_elem_of_In, Heq.
    now apply in_map. }
  destruct Hx as [<-|Hx], Hy as [<-|Hy]; auto.
  - exfalso. now apply (Hin y).
  - exfalso. now apply (Hin x).
Qed.

Lemma sorted_map_same_loki (f : Doc -> Doc) l :
  (forall x, loki (f x) = loki x) ->
  StronglySorted loki_lt l -> StronglySorted loki_lt (map f l).
Proof.
  intros Hf. induction 1 as [|a l Hs IH Hall]; simpl; constructor; auto.
  rewrite List.Forall_forall in *. intros y Hy.
  apply in_map_iff in Hy. destruct Hy as [z [<- Hz]].
  unfold loki_lt. rewrite !Hf. now apply Hall.
Qed.

Lemma sorted_filter (p : Doc -> bool) l :
  StronglySorted loki_lt l -> StronglySorted loki_lt (List.filter p l).
Proof.
  induction 1 as [|a l Hs IH Hall]; simpl; [constructor|].
  destruct (p a); [|exact IH].
  constructor; [exact IH|].
  rewrite List.Forall_forall in *. intros y Hy.
  apply filter_In in Hy. now apply Hall.
Qed.

Lemma sorted_snoc l d :
  StronglySorted loki_lt l -> (forall x, In x l -> loki x < loki d) ->
  StronglySorted loki_lt (l ++ [d]).
Proof.
  induction 1 as [|a l Hs IH Hall]; simpl; intros Hd.
  - repeat constructor.
  - constructor.
    + apply IH. intros x Hx. apply Hd. now right.
    + rewrite List.Forall_forall in *. intros y Hy.
      apply in_app_iff in Hy. destruct Hy as [Hy|[<-|[]]].
      * now apply Hall.
      * apply Hd. now left.
Qed.

Lemma nodup_map_filter (p : Doc -> bool) l :
  NoDup (map doc_id l) -> NoDup (map doc_id (List.filter p l)).
Proof.
  induction l as [|a l IH]; simpl; intros Hnd; [exact Hnd|].
  apply NoDup_cons in Hnd. destruct Hnd as [Ha Hnd].
  destruct (p a); [|now apply IH].
  simpl. apply NoDup_cons. split; [|now apply IH].
  intros Hin. apply Ha.
  rewrite list_elem_of_In in *. apply in_map_iff in Hin.
  destruct Hin as [z [Hz Hin]]. apply filter_In in Hin.
  apply in_map_iff. exists z. tauto.
Qed.

End LokiFacts.

(* ===================================================================== *)
(** * The invariant is established by [init] and kept by the operations   *)
(* ===================================================================== *)

Lemma wf_addCollection : wf Loki.addCollection.
Proof.
  unfold wf, Loki.addCollection; simpl.
  repeat split; try constructor. lia.
Qed.

Lemma wf_insert e c :
  wf c -> (forall d, In d (Loki.data c) -> doc_id d <> Extent.id e) ->
  wf (Loki.insert e c).
Proof.
  intros (Hs & H0 & Hb & Hn) Hfresh. unfold wf, Loki.insert; simpl.
  rewrite List.Forall_forall in Hb.
  repeat split.
  - apply sorted_snoc; [exact Hs|].
    intros x Hx. simpl. apply Hb in Hx. lia.
  - lia.
  - rewrite List.Forall_forall. intros x Hx.
    apply in_app_iff in Hx. destruct Hx as [Hx|[<-|[]]].
    + apply Hb in Hx. lia.
    + simpl. lia.
  - rewrite map_app. simpl. apply NoDup_app. repeat split.
    + exact Hn.
    + intros i Hi Hi'. apply list_elem_of_In in Hi.
      apply in_map_iff in Hi. destruct Hi as [d [<- Hd]].
      apply list_elem_of_In in Hi'. destruct Hi' as [Hi'|[]].
      now apply (Hfresh d).
    + apply NoDup_singleton.
Qed.

Lemma touch_loki e d : Loki.loki (touch e d) = Loki.loki d.
Proof. reflexivity. Qed.

Lemma touch_doc_id e d : doc_id (touch e d) = doc_id d.
Proof. reflexivity. Qed.

(** Replacing by sequence number, as [update] does, touches exactly the
    record with the extent id when the collection is well formed. *)
Lemma update_touch_data e d c :
  wf c -> In d (Loki.data c) ->
  Loki.data (Loki.update (touch e d) c)
  = map (fun x => if String.eqb (doc_id x) (doc_id d) then touch e x else x)
        (Loki.data c).
Proof.
  intros (Hs & _ & _ & Hn) Hd. unfold Loki.update; simpl.
  apply map_ext_in. intros x Hx.
  destruct (Loki.loki x =? Loki.loki d) eqn:El;
    destruct (String.eqb (doc_id x) (doc_id d)) eqn:Ei; try reflexivity.
  - apply Z.eqb_eq in El.
    now rewrite (sorted_loki_inj _ _ _ Hs Hx Hd El).
  - apply Z.eqb_eq in El.
    rewrite (sorted_loki_inj _ _ _ Hs Hx Hd El), String.eqb_refl in Ei.
    discriminate.
  - apply String.eqb_eq in Ei.
    rewrite (nodup_id_inj _ _ _ Hn Hx Hd Ei), Z.eqb_refl in El.
    discriminate.
Qed.

Lemma wf_update_touch e d c :
  wf c -> In d (Loki.data c) -> wf (Loki.update (touch e d) c).
Proof.
  intros Hwf Hd. pose proof (update_touch_data e d c Hwf Hd) as Hdata.
  destruct Hwf as (Hs & H0 & Hb & Hn).
  set (f := fun x => if String.eqb (doc_id x) (doc_id d) then touch e x else x)
    in Hdata.
  assert (Hl : forall x, Loki.loki (f x) = Loki.loki x).
  { intros x. unfold f. now destruct (String.eqb _ _). }
  assert (Hi : forall x, doc_id (f x) = doc_id x).
  { intros x. unfold f. now destruct (String.eqb _ _). }
  unfold wf. rewrite Hdata. repeat split.
  - now apply sorted_map_same_loki.
  - exact H0.
  - rewrite List.Forall_forall in *. intros y Hy.
    apply in_map_iff in Hy. destruct Hy as [z [<- Hz]].
    rewrite Hl. now apply Hb.
  - rewrite map_map. erewrite map_ext; [exact Hn|]. exact Hi.
Qed.

Lemma wf_findAndRemove q c : wf c -> wf (Loki.findAndRemove q c).
Proof.
  intros (Hs & H0 & Hb & Hn). unfold wf, Loki.findAndRemove; simpl.
  repeat split.
  - now apply sorted_filter.
  - exact H0.
  - rewrite List.Forall_forall in *. intros y Hy.
    apply filter_In in Hy. now apply Hb.
  - now apply nodup_map_filter.
Qed.

Lemma set_db_same this c : db this = Some c -> set_db this c = this.
Proof. destruct this; simpl; intros ->; reflexivity. Qed.

Lemma getCollection_Some this c : db this = Some c -> getCollection this = Ok c.
Proof. unfold getCollection. now intros ->. Qed.

Lemma filter_all_true {A} (p : A -> bool) l :
  (forall x, In x l -> p x = true) -> List.filter p l = l.
Proof.
  induction l as [|a l IH]; simpl; intros H; [reflexivity|].
  rewrite (H a (or_introl eq_refl)). f_equal. apply IH. auto.
Qed.

Lemma filter_idem {A} (p : A -> bool) l :
  List.filter p (List.filter p l) = List.filter p l.
Proof.
  apply filter_all_true. intros x Hx. now apply filter_In in Hx.
Qed.

(* ===================================================================== *)
(** * updateExtent                                                        *)
(* ===================================================================== *)

Lemma updateExtent_wf e this coll this' :
  db this = Some coll -> wf coll -> updateExtent e this = Ok this' ->
  exists coll', db this' = Some coll' /\ wf coll'.
Proof.
  intros Hdb Hwf. unfold updateExtent.
  rewrite (getCollection_Some _ _ Hdb). simpl.
  destruct (Loki.findOne (Loki.byId (Extent.id e)) coll) as [doc|] eqn:Hfind;
    intros [= <-]; eexists; (split; [reflexivity|]).
  - apply findOne_Some_In in Hfind. destruct Hfind as [Hin _].
    now apply (wf_update_touch e doc coll).
  - apply wf_insert; [exact Hwf|]. now apply findOne_None.
Qed.

(** C1 (as amended): on a well-formed catalog [updateExtent e] appends [e]
    under the next sequence number when no record has [e]'s id; when a
    record with that id exists, only its [size] and [LastModifyInMS] are
    overwritten: [persistencyId], [path], the sequence number and every
    other record stay as they were.  The invariant is preserved. *)
Theorem updateExtent_upsert (e : IExtentModel) (this : LokiExtentMetadata)
    (coll : Loki.Collection) :
  db this = Some coll -> wf coll ->
  exists coll',
    updateExtent e this = Ok (set_db this coll')
    /\ wf coll'
    /\ ((forall d, In d (Loki.data coll) -> doc_id d <> Extent.id e) ->
        Loki.data coll'
        = Loki.data coll ++ [ {| Loki.obj := e; Loki.loki := Loki.maxId coll + 1 |} ]
        /\ Loki.maxId coll' = Loki.maxId coll + 1)
    /\ (forall d, In d (Loki.data coll) -> doc_id d = Extent.id e ->
        Loki.data coll'
        = map (fun x => if String.eqb (doc_id x) (Extent.id e)
                        then touch e x else x) (Loki.data coll)
        /\ Loki.maxId coll' = Loki.maxId coll
        /\ Loki.findOne (Loki.byId (Extent.id e)) coll' = Some (touch e d)).
Proof.
  intros Hdb Hwf. unfold updateExtent.
  rewrite (getCollection_Some _ _ Hdb). simpl.
  destruct (Loki.findOne (Loki.byId (Extent.id e)) coll) as [doc|] eqn:Hfind.
  - apply findOne_Some_In in Hfind as Hdoc. destruct Hdoc as [Hin Hid].
    exists (Loki.update (touch e doc) coll).
    split; [reflexivity|]. split; [now apply wf_update_touch|]. split.
    + intros Hfresh. exfalso. now apply (Hfresh doc).
    + intros d Hd Hde.
      assert (d = doc) as ->.
      { destruct Hwf as (_ & _ & _ & Hn).
        apply (nodup_id_inj _ _ _ Hn Hd Hin). congruence. }
      pose proof (wf_update_touch e doc coll Hwf Hin) as Hwf'.
      rewrite (update_touch_data e doc coll Hwf Hin), Hid.
      split; [reflexivity|]. split; [reflexivity|].
      destruct (Loki.update (touch e doc) coll) as [l' mx'] eqn:Eu.
      destruct Hwf' as (_ & _ & _ & Hn'). simpl in Hn'.
      apply findOne_unique; [exact Hn'| |now rewrite touch_doc_id].
      assert (El : l' = Loki.data (Loki.update (touch e doc) coll))
        by now rewrite Eu.
      rewrite El, (update_touch_data e doc coll Hwf Hin).
      apply in_map_iff. exists doc. split; [|exact Hin].
      now rewrite String.eqb_refl.
  - exists (Loki.insert e coll).
    split; [reflexivity|].
    rewrite findOne_None in Hfind.
    split; [now apply wf_insert|]. split.
    + intros _. split; reflexivity.
    + intros d Hd Hde. exfalso. now apply (Hfind d).
Qed.

(** Every state the catalog object can get into holds a well-formed
    collection. *)
Lemma reachable_wf this :
  reachable this -> forall coll, db this = Some coll -> wf coll.
Proof.
  unfold reachable. intros Hreach.
  apply (rtc_ind_r (R := step)
           (fun s => forall coll, db s = Some coll -> wf coll)
           constructor) with (z := this); [| |exact Hreach].
  { intros coll Hdb. discriminate. }
  clear this Hreach. intros mid this' Hrtc Hstep IH coll Hdb.
  destruct Hstep as [disk saveOk this Hdisk|closeOk this|e this this' Hrun
                    |extentId this this' Hrun].
  - destruct disk as [|[c|]|]; simpl in Hdb.
    + destruct (db this) as [c|] eqn:Ec;
        destruct saveOk; simpl in Hdb; injection Hdb as <-;
        (now apply IH) || apply wf_addCollection.
    + destruct saveOk; simpl in Hdb; injection Hdb as <-; now apply Hdisk.
    + destruct saveOk; simpl in Hdb; injection Hdb as <-;
        apply wf_addCollection.
    + now apply IH.
  - destruct closeOk; simpl in Hdb; now apply IH.
  - destruct (db this) as [c|] eqn:Ec.
    + destruct (updateExtent_wf e this c this' Ec (IH c eq_refl) Hrun)
        as (c' & Hdb' & Hwf').
      rewrite Hdb' in Hdb. now injection Hdb as <-.
    + unfold updateExtent, getCollection in Hrun. rewrite Ec in Hrun.
      discriminate.
  - unfold deleteExtent, getCollection in Hrun.
    destruct (db this) as [c|] eqn:Ec; [|discriminate].
    simpl in Hrun. injection Hrun as <-. simpl in Hdb. injection Hdb as <-.
    apply wf_findAndRemove. now apply IH.
Qed.

(** A rejected [init] whose save failed has already created the
    collection: the catalog works although [isInitialized] is false. *)
Lemma failed_init_leaves_collection :
  isInitialized (fst (init NoFile false constructor)) = false
  /\ snd (init NoFile false constructor) = Throw IOError
  /\ listExtents None None None None None (fst (init NoFile false constructor))
     = Ok ([], None).
Proof. repeat split. Qed.

Lemma wf_coll12 : wf coll12.
Proof.
  unfold coll12. apply wf_insert; [apply wf_insert; [apply wf_addCollection|]|].
  - intros d [].
  - simpl. intros d [<-|[]]. discriminate.
Qed.

Lemma updateExtent_upsert_witness :
  exists coll',
    updateExtent extent1_moved catalog12 = Ok (set_db catalog12 coll')
    /\ Loki.findOne (Loki.byId "e1") coll'
       = Some {| Loki.obj :=
                   {| Extent.id := "e1"; Extent.persistencyId := "d1";
                      Extent.path := "p1"; Extent.size := 11;
                      Extent.LastModifyInMS := 300 |};
                 Loki.loki := 1 |}.
Proof.
  destruct (updateExtent_upsert extent1_moved catalog12 coll12 eq_refl wf_coll12)
    as (coll' & Hrun & _ & _ & Hupd).
  exists coll'. split; [exact Hrun|].
  refine (proj2 (proj2 (Hupd {| Loki.obj := extent1; Loki.loki := 1 |} _ _))).
  - simpl. now left.
  - reflexivity.
Defined.

(** C1 (as stated) fails: updating a catalogued extent with a different
    destination leaves the stored [persistencyId] and [path] untouched. *)
Lemma updateExtent_keeps_location :
  exists this',
    updateExtent extent1_moved catalog12 = Ok this'
    /\ getExtentPersistencyId (Extent.id extent1_moved) this' = Ok "d1"
    /\ Extent.persistencyId extent1_moved = "d2"
    /\ (forall coll' d, db this' = Some coll' ->
          Loki.findOne (Loki.byId "e1") coll' = Some d ->
          Extent.path (Loki.obj d) = "p1"
          /\ Extent.path (Loki.obj d) <> Extent.path extent1_moved).
Proof.
  eexists. split; [reflexivity|]. split; [reflexivity|]. split; [reflexivity|].
  intros coll' d Hdb Hd. simpl in Hdb. injection Hdb as <-.
  vm_compute in Hd. injection Hd as <-. simpl. split; [reflexivity|discriminate].
Qed.

(* ===================================================================== *)
(** * deleteExtent and getExtentPersistencyId                             *)
(* ===================================================================== *)

Lemma findAndRemove_data i c :
  Loki.data (Loki.findAndRemove (Loki.byId i) c)
  = List.filter (fun d => negb (String.eqb (doc_id d) i)) (Loki.data c).
Proof.
  unfold Loki.findAndRemove; simpl.
  apply filter_ext. intros d. now rewrite matches_byId.
Qed.

Lemma findAndRemove_idem q c :
  Loki.findAndRemove q (Loki.findAndRemove q c) = Loki.findAndRemove q c.
Proof.
  unfold Loki.findAndRemove; simpl. now rewrite filter_idem.
Qed.

Lemma findAndRemove_absent i c :
  (forall d, In d (Loki.data c) -> doc_id d <> i) ->
  Loki.findAndRemove (Loki.byId i) c = c.
Proof.
  intros Habs. destruct c as [l mx]. unfold Loki.findAndRemove; simpl.
  f_equal. apply filter_all_true. intros d Hd. rewrite matches_byId.
  apply negb_true_iff, String.eqb_neq. now apply Habs.
Qed.

(** C5: on an initialised catalog [deleteExtent] always succeeds; it
    removes the record with the given id and nothing else, leaves the
    catalog as it was when the id is not catalogued, and deleting a
    second time changes nothing more. *)
Theorem deleteExtent_idempotent (extentId : string) (this : LokiExtentMetadata)
    (coll : Loki.Collection) :
  db this = Some coll ->
  exists this' coll',
    deleteExtent extentId this = Ok this'
    /\ db this' = Some coll'
    /\ (forall d, In d (Loki.data coll') <->
                  In d (Loki.data coll) /\ doc_id d <> extentId)
    /\ (wf coll -> wf coll')
    /\ ((forall d, In d (Loki.data coll) -> doc_id d <> extentId) ->
        this' = this)
    /\ deleteExtent extentId this' = Ok this'.
Proof.
  intros Hdb. unfold deleteExtent at 1.
  rewrite (getCollection_Some _ _ Hdb). simpl.
  exists (set_db this (Loki.findAndRemove (Loki.byId extentId) coll)),
         (Loki.findAndRemove (Loki.byId extentId) coll).
  split; [reflexivity|]. split; [reflexivity|]. split; [|split; [|split]].
  - intros d. rewrite findAndRemove_data, filter_In, negb_true_iff.
    now rewrite String.eqb_neq.
  - apply wf_findAndRemove.
  - intros Habs. rewrite (findAndRemove_absent _ _ Habs).
    now apply set_db_same.
  - unfold deleteExtent, getCollection; simpl.
    now rewrite findAndRemove_idem.
Qed.

Lemma deleteExtent_idempotent_witness :
  exists this' coll',
    deleteExtent "e1" catalog12 = Ok this'
    /\ db this' = Some coll'
    /\ Loki.data coll' = [ {| Loki.obj := extent2; Loki.loki := 2 |} ]
    /\ deleteExtent "e1" this' = Ok this'.
Proof.
  destruct (deleteExtent_idempotent "e1" catalog12 coll12 eq_refl)
    as (this' & coll' & Hrun & Hdb & _ & _ & _ & Hagain).
  exists this', coll'. repeat split; try assumption.
  vm_compute in Hrun. injection Hrun as <-.
  vm_compute in Hdb. injection Hdb as <-. reflexivity.
Defined.

(** Point lookup on a well-formed, initialised catalog: the
    [persistencyId] of the record stored under the id is returned; when
    no record has the id the property read on the [null] lookup result
    raises [TypeError]. *)
Theorem getExtentPersistencyId_lookup (extentId : string)
    (this : LokiExtentMetadata) (coll : Loki.Collection) :
  db this = Some coll -> wf coll ->
  (forall d, In d (Loki.data coll) -> doc_id d = extentId ->
     getExtentPersistencyId extentId this
     = Ok (Extent.persistencyId (Loki.obj d)))
  /\ ((forall d, In d (Loki.data coll) -> doc_id d <> extentId) ->
      getExtentPersistencyId extentId this = Throw TypeError).
Proof.
  intros Hdb (_ & _ & _ & Hn). unfold getExtentPersistencyId.
  rewrite (getCollection_Some _ _ Hdb). simpl. split.
  - intros d Hd Hid. destruct coll as [l mx]. simpl in *.
    now rewrite (findOne_unique extentId l mx d Hn Hd Hid).
  - intros Habs. apply findOne_None in Habs. now rewrite Habs.
Qed.

Lemma getExtentPersistencyId_lookup_witness :
  getExtentPersistencyId "e2" catalog12 = Ok "d1"
  /\ getExtentPersistencyId "e3" catalog12 = Throw TypeError.
Proof.
  destruct (getExtentPersistencyId_lookup "e2" catalog12 coll12 eq_refl wf_coll12)
    as [Hhit _].
  destruct (getExtentPersistencyId_lookup "e3" catalog12 coll12 eq_refl wf_coll12)
    as [_ Hmiss].
  split.
  - apply (Hhit {| Loki.obj := extent2; Loki.loki := 2 |}).
    + simpl. right. now left.
    + reflexivity.
  - apply Hmiss. simpl. intros d [<-|[<-|[]]]; discriminate.
Defined.

(** C6: the lookup of an id that is not catalogued should fail with a
    [NotFound] error; the code reads [persistencyId] off the [null]
    lookup result instead, so the failure is a [TypeError]. *)
Lemma getExtentPersistencyId_missing_TypeError :
  getExtentPersistencyId "e3" catalog12 = Throw TypeError
  /\ getExtentPersistencyId "e3" catalog12 <> Throw NotFound
  /\ getExtentPersistencyId "e3" catalog0 = Throw TypeError.
Proof.
  repeat split; try reflexivity. discriminate.
Qed.

(* ===================================================================== *)
(** * Lifecycle flags                                                     *)
(* ===================================================================== *)



(* ===================================================================== *)
(** * listExtents                                                         *)
(* ===================================================================== *)

(** The query built by [listExtents] selects what the specification's
    filter selects. *)
Lemma matches_selected id marker queryTime UnmodifiedTime d :
  Loki.matches (listExtents_query id marker queryTime UnmodifiedTime) d = true
  <-> selected id marker queryTime UnmodifiedTime d.
Proof.
  unfold Loki.matches, listExtents_query, selected, Loki.opt_test,
    Loki.op_lt, Loki.op_gt; simpl.
  rewrite !andb_true_iff.
  destruct id as [i|], queryTime as [t|], marker as [m|];
    rewrite ?String.eqb_eq, ?Z.ltb_lt;
    (split;
     [ intros [[H1 H2] H3]; repeat split; intros ? [= <-] || intros ? [=];
       assumption
     | intros (H1 & H2 & H3); repeat split;
       try (apply H1; reflexivity); try (apply H2; reflexivity);
       try (apply H3; reflexivity) ]).
Qed.

Lemma slice0_pos {A} (n : Z) (l : list A) :
  1 <= n -> Loki.slice0 n l = firstn (Z.to_nat n) l.
Proof.
  intros Hn. unfold Loki.slice0.
  destruct (n <? 0) eqn:E; [apply Z.ltb_lt in E; lia|reflexivity].
Qed.

(** The two outcomes of a call with a positive page limit: a short page
    without marker, or a full page with the sequence number of its last
    record. *)
Lemma listExtents_page id maxResults marker queryTime UnmodifiedTime this coll :
  db this = Some coll -> 1 <= default 5000 maxResults ->
  let n := default 5000 maxResults in
  let found :=
    Loki.find (listExtents_query id marker queryTime UnmodifiedTime) coll in
  (Z.of_nat (length found) < n
   /\ listExtents id maxResults marker queryTime UnmodifiedTime this
      = Ok (found, None))
  \/ (n <= Z.of_nat (length found)
      /\ exists front d,
           firstn (Z.to_nat n) found = front ++ [d]
           /\ listExtents id maxResults marker queryTime UnmodifiedTime this
              = Ok (front ++ [d], Some (Loki.loki d))).
Proof.
  intros Hdb Hn n found. unfold listExtents.
  rewrite (getCollection_Some _ _ Hdb). simpl.
  fold n. fold found. unfold Loki.limit. rewrite (slice0_pos n found Hn).
  destruct (Z.lt_ge_cases (Z.of_nat (length found)) n) as [Hlt|Hge].
  - left. split; [exact Hlt|].
    rewrite firstn_all2 by lia.
    apply Z.ltb_lt in Hlt. now rewrite Hlt.
  - right. split; [exact Hge|].
    assert (Hlen : length (firstn (Z.to_nat n) found) = Z.to_nat n).
    { apply firstn_length_le. lia. }
    rewrite Hlen.
    assert (Hnlt : (Z.of_nat (Z.to_nat n) <? n) = false).
    { apply Z.ltb_ge. lia. }
    rewrite Hnlt.
    destruct (last (firstn (Z.to_nat n) found)) as [d|] eqn:El.
    + apply last_Some in El. destruct El as [front El].
      exists front, d. rewrite El. split; reflexivity.
    + apply last_None in El. rewrite El in Hlen. simpl in Hlen. lia.
Qed.

(** C2 (as stated) fails: with two catalogued extents and page limit 2
    the first page holds every record, so it is the last page of the
    enumeration, and it still carries a [nextMarker]; the call after it
    returns an empty page. *)
Lemma listExtents_full_last_page_has_marker :
  listExtents None (Some 2) None None None catalog12
  = Ok (Loki.data coll12, Some 2)
  /\ Loki.find (listExtents_query None None None None) coll12
     = Loki.data coll12
  /\ listExtents None (Some 2) (Some 2) None None catalog12 = Ok ([], None).
Proof. repeat split. Qed.

(** List pagination, scaled: twelve records and page limit 5 give pages
    of 5, 5 and 2 records; the first two carry a marker, the third none. *)
Lemma listExtents_pagination_scenario :
  exists page1 page2 page3 m1 m2,
    listExtents None (Some 5) None None None catalogTwelve
    = Ok (page1, Some m1)
    /\ listExtents None (Some 5) (Some m1) None None catalogTwelve
       = Ok (page2, Some m2)
    /\ listExtents None (Some 5) (Some m2) None None catalogTwelve
       = Ok (page3, None)
    /\ (length page1, length page2, length page3) = (5%nat, 5%nat, 2%nat)
    /\ map (fun d => Loki.loki d) (page1 ++ page2 ++ page3)
       = map Z.of_nat (seq 1 12).
Proof.
  do 5 eexists. repeat split; vm_compute; reflexivity.
Qed.

(** A page limit of 0 makes the call fail on the read of the last record
    of the empty page. *)
Lemma listExtents_limit_zero_throws :
  listExtents None (Some 0) None None None catalog12 = Throw TypeError.
Proof. reflexivity. Qed.

Lemma exact_in_double_range z :
  - 9007199254740992 <= z <= 9007199254740992 -> exact_in_double z.
Proof.
  unfold exact_in_double.
  change (2 ^ 53) with 9007199254740992. lia.
Qed.

Lemma age_filter_exact_coll12 : age_filter_exact (Some 1300) (Some 1) coll12.
Proof.
  intros getTime [= <-]. simpl.
  split; [|split; [|split]]; try (apply exact_in_double_range; lia).
  intros d [<-|[<-|[]]]; apply exact_in_double_range; simpl; lia.
Qed.

(** C4 (as amended): for a positive page limit, and for integer
    millisecond values in the range where JavaScript computes the age
    threshold exactly, the call returns a page whose records are
    catalogued records selected by the filter (exact id when given,
    [LastModifyInMS] strictly below [queryTime - unmodifiedSeconds * 1000]
    when a query time is given, zero seconds when omitted); a selected
    record is left out only when the page is full; the page holds at most
    [limit] records; and omitting the limit is the same as passing 5000. *)
Theorem listExtents_filter (id : option string)
    (maxResults marker queryTime UnmodifiedTime : option Z)
    (this : LokiExtentMetadata) (coll : Loki.Collection) :
  db this = Some coll -> 1 <= default 5000 maxResults ->
  age_filter_exact queryTime UnmodifiedTime coll ->
  exists docs nextMarker,
    listExtents id maxResults marker queryTime UnmodifiedTime this
    = Ok (docs, nextMarker)
    /\ (forall d, In d docs ->
          In d (Loki.data coll)
          /\ selected id marker queryTime UnmodifiedTime d)
    /\ (forall d, In d (Loki.data coll) ->
          selected id marker queryTime UnmodifiedTime d ->
          In d docs \/ Z.of_nat (length docs) = default 5000 maxResults)
    /\ Z.of_nat (length docs) <= default 5000 maxResults
    /\ (maxResults = None -> Z.of_nat (length docs) <= 5000)
    /\ listExtents id None marker queryTime UnmodifiedTime this
       = listExtents id (Some 5000) marker queryTime UnmodifiedTime this
    /\ listExtents id maxResults marker queryTime None this
       = listExtents id maxResults marker queryTime (Some 0) this.
Proof.
  intros Hdb Hn _.
  set (q := listExtents_query id marker queryTime UnmodifiedTime).
  assert (Hfound : forall d, In d (Loki.find q coll) <->
                     In d (Loki.data coll)
                     /\ selected id marker queryTime UnmodifiedTime d).
  { intros d. unfold Loki.find. rewrite filter_In.
    unfold q. now rewrite matches_selected. }
  assert (Hdefault :
            listExtents id None marker queryTime UnmodifiedTime this
            = listExtents id (Some 5000) marker queryTime UnmodifiedTime this
            /\ listExtents id maxResults marker queryTime None this
               = listExtents id maxResults marker queryTime (Some 0) this).
  { split; reflexivity. }
  destruct (listExtents_page id maxResults marker queryTime UnmodifiedTime
              this coll Hdb Hn) as [[Hlt Hrun]|(Hge & front & d & Hfront & Hrun)];
    fold q in Hlt || fold q in Hge, Hfront.
  - exists (Loki.find q coll), None.
    split; [exact Hrun|]. split; [|split; [|split; [|split]]].
    + intros x Hx. now apply Hfound.
    + intros x Hx Hsel. left. now apply Hfound.
    + lia.
    + intros ->. simpl in Hlt. lia.
    + exact Hdefault.
  - exists (front ++ [d]), (Some (Loki.loki d)).
    assert (Hlen : Z.of_nat (length (front ++ [d])) = default 5000 maxResults).
    { rewrite <- Hfront, firstn_length_le by lia. lia. }
    assert (Hsub : forall x, In x (front ++ [d]) -> In x (Loki.find q coll)).
    { intros x Hx. rewrite <- Hfront in Hx.
      rewrite <- (firstn_skipn (Z.to_nat (default 5000 maxResults))
                     (Loki.find q coll)).
      apply in_or_app. now left. }
    split; [exact Hrun|]. split; [|split; [|split; [|split]]].
    + intros x Hx. now apply Hfound, Hsub.
    + intros x Hx Hsel. now right.
    + lia.
    + intros ->. simpl in Hlen. lia.
    + exact Hdefault.
Qed.

Lemma listExtents_filter_witness :
  exists docs nextMarker,
    listExtents (Some "e2") None None (Some 1300) (Some 1) catalog12
    = Ok (docs, nextMarker)
    /\ (forall d, In d docs ->
          In d (Loki.data coll12)
          /\ selected (Some "e2") None (Some 1300) (Some 1) d)
    /\ Z.of_nat (length docs) <= 5000.
Proof.
  destruct (listExtents_filter (Some "e2") None None (Some 1300) (Some 1)
              catalog12 coll12 eq_refl ltac:(simpl; lia)
              age_filter_exact_coll12)
    as (docs & nm & Hrun & Hsound & _ & Hlen & _).
  exists docs, nm. split; [exact Hrun|]. split; [exact Hsound|exact Hlen].
Defined.

(** C4 (as stated) fails: with page limit -1 the call returns a page of
    one record, more than the limit allows, and with page limit 0 it
    returns no page at all but fails. *)
Lemma listExtents_negative_limit_exceeds :
  listExtents None (Some (-1)) None None None catalog12
  = Ok ([ {| Loki.obj := extent1; Loki.loki := 1 |} ], Some 1)
  /\ -1 < Z.of_nat (length [ {| Loki.obj := extent1; Loki.loki := 1 |} ])
  /\ listExtents None (Some 0) None None None catalog12 = Throw TypeError.
Proof. repeat split. Qed.

(* ===================================================================== *)
(** * Paged enumeration                                                   *)
(* ===================================================================== *)

Lemma sorted_app_lt l1 l2 x y :
  StronglySorted loki_lt (l1 ++ l2) -> In x l1 -> In y l2 ->
  Loki.loki x < Loki.loki y.
Proof.
  induction l1 as [|a l1 IH]; simpl; intros Hs Hx Hy; [destruct Hx|].
  apply StronglySorted_inv in Hs. destruct Hs as [Hs Hall].
  destruct Hx as [<-|Hx]; [|now apply IH].
  rewrite List.Forall_forall in Hall. apply Hall, in_or_app. now right.
Qed.

Lemma sorted_app_r l1 l2 :
  StronglySorted loki_lt (l1 ++ l2) -> StronglySorted loki_lt l2.
Proof.
  induction l1 as [|a l1 IH]; simpl; intros Hs; [exact Hs|].
  apply StronglySorted_inv in Hs. now apply IH.
Qed.

Lemma sorted_NoDup l : StronglySorted loki_lt l -> NoDup l.
Proof.
  induction 1 as [|a l Hs IH Hall]; [constructor|].
  apply NoDup_cons. split; [|exact IH].
  rewrite List.Forall_forall in Hall. intros Hin.
  apply list_elem_of_In, Hall in Hin. unfold loki_lt in Hin. lia.
Qed.

Lemma filter_above_suffix (m : Z) (pre suf : list Loki.Doc) :
  (forall x, In x pre -> Loki.loki x <= m) ->
  (forall x, In x suf -> m < Loki.loki x) ->
  List.filter (fun d => m <? Loki.loki d) (pre ++ suf) = suf.
Proof.
  intros Hpre Hsuf. rewrite List.filter_app.
  assert (Hnil : List.filter (fun d => m <? Loki.loki d) pre = []).
  { clear Hsuf. induction pre as [|a pre IH]; simpl; [reflexivity|].
    assert (Ha : (m <? Loki.loki a) = false).
    { apply Z.ltb_ge. apply Hpre. now left. }
    rewrite Ha. apply IH. intros x Hx. apply Hpre. now right. }
  rewrite Hnil. simpl. apply filter_all_true.
  intros x Hx. apply Z.ltb_lt. now apply Hsuf.
Qed.

Lemma filter_filter_frame {A} (p q : A -> bool) l :
  (forall x, p x = true -> q x = true) ->
  List.filter p (List.filter q l) = List.filter p l.
Proof.
  intros Hpq. induction l as [|a l IH]; simpl; [reflexivity|].
  destruct (q a) eqn:Eq; simpl.
  - now rewrite IH.
  - destruct (p a) eqn:Ep; [|exact IH].
    rewrite (Hpq a Ep) in Eq. discriminate.
Qed.

Lemma filter_andb {A} (p q : A -> bool) l :
  List.filter (fun x => p x && q x) l = List.filter q (List.filter p l).
Proof.
  induction l as [|a l IH]; simpl; [reflexivity|].
  destruct (p a); simpl; [destruct (q a); now rewrite IH|exact IH].
Qed.

Lemma matches_marker id m queryTime UnmodifiedTime d :
  Loki.matches (listExtents_query id (Some m) queryTime UnmodifiedTime) d
  = Loki.matches (listExtents_query id None queryTime UnmodifiedTime) d
    && (m <? Loki.loki d).
Proof.
  unfold Loki.matches; simpl. now rewrite andb_true_r.
Qed.

Section Paging.

Variables (id : option string) (maxResults queryTime UnmodifiedTime : option Z).
Variables (this : LokiExtentMetadata) (coll : Loki.Collection).
Hypothesis Hdb : db this = Some coll.
Hypothesis Hwf : wf coll.
Hypothesis Hlimit : 1 <= default 5000 maxResults.

Local Abbreviation everything := (unpaged id queryTime UnmodifiedTime coll).

Lemma find_marker (m : Z) :
  Loki.find (listExtents_query id (Some m) queryTime UnmodifiedTime) coll
  = List.filter (fun d => m <? Loki.loki d) everything.
Proof.
  unfold unpaged, Loki.find.
  rewrite <- filter_andb. apply filter_ext. intros d.
  apply matches_marker.
Qed.

Lemma everything_sorted : StronglySorted loki_lt everything.
Proof. apply sorted_filter. now destruct Hwf. Qed.

(** Resuming behind a prefix [pre] of the matching records yields
    exactly the remaining ones. *)
Lemma listAllPages_resume (fuel : nat) :
  forall (pre suf : list Loki.Doc) (marker : option Z),
    everything = pre ++ suf ->
    match marker with
    | None => pre = []
    | Some m => (forall x, In x pre -> Loki.loki x <= m)
                /\ (forall x, In x suf -> m < Loki.loki x)
    end ->
    (length suf < fuel)%nat ->
    listAllPages fuel id maxResults marker queryTime UnmodifiedTime this
    = Some (Ok suf).
Proof.
  induction fuel as [|fuel IH]; intros pre suf marker Hsplit Hmark Hfuel;
    [lia|].
  assert (Hfound :
            Loki.find (listExtents_query id marker queryTime UnmodifiedTime)
              coll = suf).
  { destruct marker as [m|].
    - rewrite find_marker, Hsplit.
      destruct Hmark as [Hpre Hsuf]. now apply filter_above_suffix.
    - subst pre. exact Hsplit. }
  simpl.
  destruct (listExtents_page id maxResults marker queryTime UnmodifiedTime
              this coll Hdb Hlimit)
    as [[Hlt Hrun]|(Hge & front & d & Hfront & Hrun)];
    rewrite Hrun; rewrite Hfound in *.
  - reflexivity.
  - set (n := Z.to_nat (default 5000 maxResults)) in *.
    assert (Hsuf : suf = (front ++ [d]) ++ skipn n suf).
    { rewrite <- Hfront. symmetry. apply firstn_skipn. }
    pose proof everything_sorted as Hsorted.
    rewrite Hsplit, Hsuf in Hsorted.
    rewrite (IH (pre ++ front ++ [d]) (skipn n suf) (Some (Loki.loki d))).
    + now rewrite <- Hsuf.
    + rewrite Hsplit, <- app_assoc. f_equal. exact Hsuf.
    + split.
      * intros x Hx. apply in_app_or in Hx. destruct Hx as [Hx|Hx].
        -- apply Z.lt_le_incl.
           apply (sorted_app_lt _ _ x d Hsorted Hx).
           apply in_or_app. left. apply in_or_app. right. now left.
        -- apply in_app_or in Hx. destruct Hx as [Hx|[<-|[]]]; [|lia].
           apply Z.lt_le_incl. apply sorted_app_r in Hsorted.
           rewrite <- !app_assoc in Hsorted.
           apply (sorted_app_lt _ _ x d Hsorted Hx). now left.
      * intros y Hy. apply sorted_app_r in Hsorted.
        apply (sorted_app_lt _ _ d y Hsorted); [|exact Hy].
        apply in_or_app. right. now left.
    + rewrite length_skipn. subst n. lia.
Qed.

End Paging.

(** On a well-formed catalog the continuation query behind the last
    record [d] of a page selects exactly the matching records after the
    page. *)
Lemma find_after_page id marker queryTime UnmodifiedTime coll front d rest :
  wf coll ->
  Loki.find (listExtents_query id marker queryTime UnmodifiedTime) coll
  = (front ++ [d]) ++ rest ->
  Loki.find (listExtents_query id (Some (Loki.loki d)) queryTime UnmodifiedTime)
    coll
  = rest.
Proof.
  intros Hwf Hfound.
  set (found :=
         Loki.find (listExtents_query id marker queryTime UnmodifiedTime) coll)
    in *.
  assert (Hsorted : StronglySorted loki_lt found).
  { apply sorted_filter. now destruct Hwf. }
  assert (Hd : In d found).
  { rewrite Hfound. apply in_or_app. left. apply in_or_app. right. now left. }
  assert (Hsplit : List.filter (fun x => Loki.loki d <? Loki.loki x) found
                   = rest).
  { rewrite Hfound in *. apply filter_above_suffix.
    - intros x Hx. apply in_app_or in Hx. destruct Hx as [Hx|[<-|[]]]; [|lia].
      apply Z.lt_le_incl. rewrite <- app_assoc in Hsorted.
      apply (sorted_app_lt _ _ x d Hsorted Hx). now left.
    - intros y Hy. apply (sorted_app_lt _ _ d y Hsorted); [|exact Hy].
      apply in_or_app. right. now left. }
  rewrite find_marker, <- Hsplit.
  destruct marker as [m|]; [|reflexivity].
  unfold found. rewrite find_marker.
  symmetry. apply filter_filter_frame.
  intros x Hx. apply Z.ltb_lt in Hx. apply Z.ltb_lt.
  unfold found in Hd. rewrite find_marker in Hd.
  apply filter_In in Hd as [_ Hd]. apply Z.ltb_lt in Hd. lia.
Qed.

(** C2 (as amended): for a page limit [n >= 1] the call returns a page,
    [nextMarker] is present exactly when the page holds [n] records and
    then is the [$loki] of the last record of the page; it is absent
    whenever fewer than [n] matching records remain, and the page then
    holds all of them.  On a well-formed catalog the call that passes a
    returned [nextMarker] on selects exactly the matching records behind
    the page; so when the full page was the last one, that call returns
    the empty page without marker. *)
Theorem listExtents_nextMarker (id : option string)
    (maxResults marker queryTime UnmodifiedTime : option Z)
    (this : LokiExtentMetadata) (coll : Loki.Collection) :
  db this = Some coll -> 1 <= default 5000 maxResults ->
  exists docs nextMarker,
    listExtents id maxResults marker queryTime UnmodifiedTime this
    = Ok (docs, nextMarker)
    /\ (is_Some nextMarker <-> Z.of_nat (length docs) = default 5000 maxResults)
    /\ (forall m, nextMarker = Some m ->
          exists d, last docs = Some d /\ Loki.loki d = m)
    /\ (Z.of_nat
          (length
             (Loki.find (listExtents_query id marker queryTime UnmodifiedTime)
                coll))
        < default 5000 maxResults ->
        nextMarker = None
        /\ docs = Loki.find
                    (listExtents_query id marker queryTime UnmodifiedTime) coll)
    /\ (wf coll -> forall m, nextMarker = Some m ->
        Loki.find (listExtents_query id (Some m) queryTime UnmodifiedTime) coll
        = skipn (length docs)
            (Loki.find (listExtents_query id marker queryTime UnmodifiedTime)
               coll)
        /\ (length
              (Loki.find
                 (listExtents_query id marker queryTime UnmodifiedTime) coll)
            = length docs ->
            listExtents id maxResults (Some m) queryTime UnmodifiedTime this
            = Ok ([], None))).
Proof.
  intros Hdb Hn.
  destruct (listExtents_page id maxResults marker queryTime UnmodifiedTime
              this coll Hdb Hn) as [[Hlt Hrun]|(Hge & front & d & Hfront & Hrun)].
  - eexists _, _. split; [exact Hrun|]. split; [|split; [|split]].
    + split; [intros [m Hm]; discriminate|intros Hlen; lia].
    + intros m Hm. discriminate.
    + intros _. split; reflexivity.
    + intros _ m Hm. discriminate.
  - eexists _, _. split; [exact Hrun|].
    set (found :=
           Loki.find (listExtents_query id marker queryTime UnmodifiedTime)
             coll) in *.
    assert (Hlen : Z.of_nat (length (front ++ [d])) = default 5000 maxResults).
    { rewrite <- Hfront, firstn_length_le by lia. lia. }
    split; [|split; [|split]].
    + split; [intros _; exact Hlen|intros _; now exists (Loki.loki d)].
    + intros m [= <-]. exists d. split; [apply last_snoc|reflexivity].
    + intros Hlt. lia.
    + intros Hwf m [= <-].
      assert (Hk : length (front ++ [d])
                   = Z.to_nat (default 5000 maxResults)) by lia.
      assert (Hsplit : found = (front ++ [d]) ++ skipn (length (front ++ [d]))
                                                   found).
      { rewrite Hk, <- Hfront. symmetry. apply firstn_skipn. }
      pose proof (find_after_page id marker queryTime UnmodifiedTime coll
                    front d _ Hwf Hsplit) as Hrest.
      split; [exact Hrest|].
      intros Hall.
      destruct (listExtents_page id maxResults (Some (Loki.loki d)) queryTime
                  UnmodifiedTime this coll Hdb Hn)
        as [[_ Hrun']|(Hge' & _)].
      * rewrite Hrun', Hrest, <- Hall. now rewrite skipn_all.
      * rewrite Hrest, <- Hall, skipn_all in Hge'. simpl in Hge'. lia.
Qed.

Lemma listExtents_nextMarker_witness :
  exists docs nextMarker,
    listExtents None (Some 2) None None None catalog12 = Ok (docs, nextMarker)
    /\ (is_Some nextMarker <-> Z.of_nat (length docs) = 2)
    /\ (forall m, nextMarker = Some m ->
          exists d, last docs = Some d /\ Loki.loki d = m)
    /\ (forall m, nextMarker = Some m ->
          listExtents None (Some 2) (Some m) None None catalog12
          = Ok ([], None)).
Proof.
  destruct (listExtents_nextMarker None (Some 2) None None None catalog12 coll12
              eq_refl ltac:(simpl; lia))
    as (docs & nm & Hrun & Hiff & Hlast & _ & Hnext).
  exists docs, nm. split; [exact Hrun|]. split; [exact Hiff|].
  split; [exact Hlast|].
  intros m Hm. apply (proj2 (Hnext wf_coll12 m Hm)).
  vm_compute in Hrun. injection Hrun as <- _. reflexivity.
Defined.

(** On a catalog that does not change, and with a positive (or default)
    page limit, the paged enumeration started without marker terminates
    within [length data + 1] calls, and the concatenated pages hold
    exactly the catalogued records selected by the filter, each once. *)
Lemma listAllPages_unchanged_catalog (id : option string)
    (maxResults queryTime UnmodifiedTime : option Z)
    (this : LokiExtentMetadata) (coll : Loki.Collection) (fuel : nat) :
  db this = Some coll -> wf coll -> 1 <= default 5000 maxResults ->
  (length (Loki.data coll) < fuel)%nat ->
  exists all,
    listAllPages fuel id maxResults None queryTime UnmodifiedTime this
    = Some (Ok all)
    /\ (forall d, In d all <->
                  In d (Loki.data coll)
                  /\ selected id None queryTime UnmodifiedTime d)
    /\ NoDup all.
Proof.
  intros Hdb Hwf Hlimit Hfuel.
  set (all := Loki.find (listExtents_query id None queryTime UnmodifiedTime) coll).
  exists all. split; [|split].
  - apply (listAllPages_resume id maxResults queryTime UnmodifiedTime this coll
             Hdb Hwf Hlimit fuel [] all None); [reflexivity|reflexivity|].
    unfold all, Loki.find.
    pose proof (List.filter_length_le
                  (Loki.matches
                     (listExtents_query id None queryTime UnmodifiedTime))
                  (Loki.data coll)).
    lia.
  - intros d. unfold all, Loki.find.
    now rewrite filter_In, matches_selected.
  - apply sorted_NoDup.
    now apply (everything_sorted id queryTime UnmodifiedTime coll).
Qed.

(** The enumeration with page limit 1 over two records takes three
    calls: two full pages and a final empty one. *)
Lemma listAllPages_two_records :
  listAllPages 2 None (Some 1) None None None catalog12 = None
  /\ listAllPages 3 None (Some 1) None None None catalog12
     = Some (Ok (Loki.data coll12)).
Proof. split; reflexivity. Qed.

(* ===================================================================== *)
(** * Service properties                                                  *)
(* ===================================================================== *)

Section ServiceHandlerFacts.

Variable BLOB_API_VERSION : string.

Lemma setProperties_store req parsedBody account ctx
    (store : gmap string SPM.t) :
  fst (setProperties BLOB_API_VERSION req parsedBody account ctx store)
  = <[account :=
        mergeProperties req parsedBody
          (match store !! account with
           | Some p => p
           | None => defaultServiceProperties BLOB_API_VERSION account
           end) account]> store.
Proof. reflexivity. Qed.

Lemma runSetProperties_other (reqs : list SetRequest) account :
  Forall (fun r => req_account r <> account) reqs ->
  forall store : gmap string SPM.t,
    store !! account = None ->
    runSetProperties BLOB_API_VERSION reqs store !! account = None.
Proof.
  unfold runSetProperties.
  induction 1 as [|r reqs Hr Hrest IH]; intros store Hnone;
    cbn [fold_left]; [exact Hnone|].
  apply IH. rewrite setProperties_store.
  rewrite lookup_insert_ne; [exact Hnone|exact Hr].
Qed.

(** C7: as long as [setProperties] was never called for an account,
    whatever was set for other accounts, [getProperties] answers with
    the defaults: no CORS rule, hour and minute metrics disabled,
    logging of read, write and delete enabled, static website
    disabled, and the emulator's API version as default service
    version. *)
Theorem getProperties_default (reqs : list SetRequest)
    (account contextID : string) :
  Forall (fun r => req_account r <> account) reqs ->
  getProperties BLOB_API_VERSION account contextID
    (runSetProperties BLOB_API_VERSION reqs ∅)
  = {| ServiceGetPropertiesResponse.accountName := account;
       ServiceGetPropertiesResponse.cors := Some [];
       ServiceGetPropertiesResponse.defaultServiceVersion :=
         Some BLOB_API_VERSION;
       ServiceGetPropertiesResponse.deleteRetentionPolicy := None;
       ServiceGetPropertiesResponse.hourMetrics :=
         Some {| Metrics.enabled := false;
                 Metrics.retentionPolicy :=
                   {| RetentionPolicy.enabled := false |};
                 Metrics.version := "1.0" |};
       ServiceGetPropertiesResponse.logging :=
         Some {| Logging.deleteProperty := true;
                 Logging.read := true;
                 Logging.retentionPolicy :=
                   {| RetentionPolicy.enabled := false |};
                 Logging.version := "1.0";
                 Logging.write := true |};
       ServiceGetPropertiesResponse.minuteMetrics :=
         Some {| Metrics.enabled := false;
                 Metrics.retentionPolicy :=
                   {| RetentionPolicy.enabled := false |};
                 Metrics.version := "1.0" |};
       ServiceGetPropertiesResponse.staticWebsite :=
         Some {| StaticWebsite.enabled := false |};
       ServiceGetPropertiesResponse.requestId := contextID;
       ServiceGetPropertiesResponse.statusCode := 200;
       ServiceGetPropertiesResponse.version := BLOB_API_VERSION |}.
Proof.
  intros Hnever. unfold getProperties, getServiceProperties.
  rewrite (runSetProperties_other reqs account Hnever ∅ (lookup_empty _)).
  reflexivity.
Qed.

(** C8 (as amended): [setProperties] writes back, under the account,
    the stored document (or the defaults when there is none) merged
    with the request: a supplied retention policy, metrics, logging or
    static-website member replaces the stored one and an unsupplied one
    is kept; a supplied default service version replaces the stored one
    unless it is the empty string, which is treated as unsupplied; the
    CORS rules are replaced by the supplied list, also by an empty one,
    when the body has a Cors element and are kept when it has none.
    Documents of other accounts are untouched. *)
Theorem setProperties_merge (req : SSP.t) (parsedBody : list string)
    (account contextID : string) (store : gmap string SPM.t) :
  let old := match store !! account with
             | Some p => p
             | None => defaultServiceProperties BLOB_API_VERSION account
             end in
  let store' :=
    fst (setProperties BLOB_API_VERSION req parsedBody account contextID
           store) in
  let has_cors :=
    hasOwnProperty parsedBody "cors" || hasOwnProperty parsedBody "Cors" in
  exists new,
    store' !! account = Some new
    /\ SPM.accountName new = account
    /\ replaces_or_keeps (SSP.deleteRetentionPolicy req)
         (SPM.deleteRetentionPolicy old) (SPM.deleteRetentionPolicy new)
    /\ replaces_or_keeps (SSP.hourMetrics req)
         (SPM.hourMetrics old) (SPM.hourMetrics new)
    /\ replaces_or_keeps (SSP.minuteMetrics req)
         (SPM.minuteMetrics old) (SPM.minuteMetrics new)
    /\ replaces_or_keeps (SSP.logging req)
         (SPM.logging old) (SPM.logging new)
    /\ replaces_or_keeps (SSP.staticWebsite req)
         (SPM.staticWebsite old) (SPM.staticWebsite new)
    /\ match SSP.defaultServiceVersion req with
       | Some v =>
           (v <> "" -> SPM.defaultServiceVersion new = Some v)
           /\ (v = "" ->
               SPM.defaultServiceVersion new = SPM.defaultServiceVersion old)
       | None =>
           SPM.defaultServiceVersion new = SPM.defaultServiceVersion old
       end
    /\ (has_cors = true ->
        replaces_or_keeps (SSP.cors req) (SPM.cors old) (SPM.cors new))
    /\ (has_cors = false -> SPM.cors new = SPM.cors old)
    /\ (forall other, other <> account -> store' !! other = store !! other).
Proof.
  intros old store' has_cors. subst store'.
  rewrite setProperties_store. fold old.
  exists (mergeProperties req parsedBody old account).
  split; [apply lookup_insert_eq|]. split; [reflexivity|].
  unfold replaces_or_keeps, mergeProperties; simpl.
  split; [now destruct (SSP.deleteRetentionPolicy req)|].
  split; [now destruct (SSP.hourMetrics req)|].
  split; [now destruct (SSP.minuteMetrics req)|].
  split; [now destruct (SSP.logging req)|].
  split; [now destruct (SSP.staticWebsite req)|].
  split.
  { destruct (SSP.defaultServiceVersion req) as [v|]; simpl; [|reflexivity].
    destruct (String.eqb v "") eqn:E.
    - apply String.eqb_eq in E. split; [intros Hv; contradiction|reflexivity].
    - apply String.eqb_neq in E. split; [reflexivity|intros Hv; contradiction]. }
  unfold has_cors.
  destruct (hasOwnProperty parsedBody "cors"),
           (hasOwnProperty parsedBody "Cors"); simpl;
    (split; [|split]);
    try (intros _; now destruct (SSP.cors req));
    try (intros [=]);
    try (intros other Hother; now apply lookup_insert_ne).
Qed.

(** C10: the [cors] member of the [getProperties] response is always a
    list; it is the empty list when the stored document has none. *)
Theorem getProperties_cors_defined (account contextID : string)
    (store : gmap string SPM.t) :
  exists rules,
    ServiceGetPropertiesResponse.cors
      (getProperties BLOB_API_VERSION account contextID store)
    = Some rules
    /\ (forall p, store !! account = Some p -> SPM.cors p = None ->
          rules = [])
    /\ (forall p c, store !! account = Some p -> SPM.cors p = Some c ->
          rules = c)
    /\ (store !! account = None -> rules = []).
Proof.
  unfold getProperties, getServiceProperties.
  destruct (store !! account) as [p|]; simpl.
  - destruct (SPM.cors p) as [c|] eqn:Ec.
    + exists c. split; [reflexivity|]. split; [|split].
      * intros p' [= <-] Hp. congruence.
      * intros p' c' [= <-] Hp. congruence.
      * intros [=].
    + exists []. split; [reflexivity|]. split; [|split].
      * reflexivity.
      * intros p' c' [= <-] Hp. congruence.
      * intros [=].
  - exists []. split; [reflexivity|]. split; [|split].
    + intros p [=].
    + intros p c [=].
    + reflexivity.
Qed.

End ServiceHandlerFacts.

Lemma getProperties_default_witness :
  ServiceGetPropertiesResponse.cors
    (getProperties "2019-02-02" "devstoreaccount1" "ctx-1"
       (runSetProperties "2019-02-02" [otherAccountRequest] ∅))
  = Some []
  /\ ServiceGetPropertiesResponse.defaultServiceVersion
       (getProperties "2019-02-02" "devstoreaccount1" "ctx-1"
          (runSetProperties "2019-02-02" [otherAccountRequest] ∅))
     = Some "2019-02-02".
Proof.
  assert (Hnever : Forall (fun r => req_account r <> "devstoreaccount1")
                     [otherAccountRequest]).
  { constructor; [discriminate|constructor]. }
  rewrite (getProperties_default "2019-02-02" [otherAccountRequest]
             "devstoreaccount1" "ctx-1" Hnever).
  split; reflexivity.
Defined.

(** C8 (as stated) fails: a request that supplies the empty string as
    default service version leaves the stored version in place. *)
Lemma setProperties_blank_version_kept :
  SSP.defaultServiceVersion blankVersionRequest = Some ""
  /\ exists new,
       fst (setProperties "2019-02-02" blankVersionRequest
              ["DefaultServiceVersion"] "devstoreaccount1" "ctx-2"
              {[ "devstoreaccount1" := storedDoc ]})
       !! "devstoreaccount1" = Some new
       /\ SPM.defaultServiceVersion new = Some "2018-03-28".
Proof.
  split; [reflexivity|].
  rewrite setProperties_store, lookup_singleton_eq.
  eexists. split; [apply lookup_insert_eq|reflexivity].
Qed.

(** An explicitly supplied empty CORS list replaces the stored rules; a
    body without Cors element keeps them, whatever the deserialiser put
    into the [cors] member. *)
Lemma setProperties_cors_examples :
  (exists new,
     fst (setProperties "2019-02-02"
            {| SSP.cors := Some []; SSP.defaultServiceVersion := None;
               SSP.deleteRetentionPolicy := None; SSP.hourMetrics := None;
               SSP.logging := None; SSP.minuteMetrics := None;
               SSP.staticWebsite := None |}
            ["Cors"] "devstoreaccount1" "ctx-3"
            {[ "devstoreaccount1" := storedDoc ]})
     !! "devstoreaccount1" = Some new
     /\ SPM.cors new = Some [])
  /\ (exists new,
        fst (setProperties "2019-02-02"
               {| SSP.cors := Some []; SSP.defaultServiceVersion := None;
                  SSP.deleteRetentionPolicy := None; SSP.hourMetrics := None;
                  SSP.logging := None; SSP.minuteMetrics := None;
                  SSP.staticWebsite := None |}
               ["Logging"] "devstoreaccount1" "ctx-4"
               {[ "devstoreaccount1" := storedDoc ]})
        !! "devstoreaccount1" = Some new
        /\ SPM.cors new = Some [sampleRule]).
Proof.
  split; rewrite setProperties_store, lookup_singleton_eq;
    eexists; (split; [apply lookup_insert_eq|reflexivity]).
Qed.

(* ===================================================================== *)
(** * Further properties of the catalog: lifecycle                        *)
(* ===================================================================== *)

Lemma reachable_catalog12 : reachable catalog12.
Proof.
  unfold reachable.
  eapply rtc_l; [apply (step_init NoFile true constructor); discriminate|].
  eapply rtc_l; [apply (step_updateExtent extent1); reflexivity|].
  eapply rtc_l; [apply (step_updateExtent extent2); reflexivity|].
  apply rtc_refl.
Qed.

(** X1: whatever sequence of [init] (loading a well-formed database),
    [close], [updateExtent] and [deleteExtent] calls a catalog object has
    seen, its collection never holds two records with the same extent
    id, its sequence numbers lie between 1 and [maxId], and they strictly
    increase in enumeration order. *)
Theorem reachable_catalog_invariant (this : LokiExtentMetadata)
    (coll : Loki.Collection) :
  reachable this -> db this = Some coll ->
  (forall d1 d2, In d1 (Loki.data coll) -> In d2 (Loki.data coll) ->
     doc_id d1 = doc_id d2 -> d1 = d2)
  /\ (forall d, In d (Loki.data coll) -> 1 <= Loki.loki d <= Loki.maxId coll)
  /\ StronglySorted loki_lt (Loki.data coll).
Proof.
  intros Hreach Hdb.
  destruct (reachable_wf this Hreach coll Hdb) as (Hs & _ & Hb & Hn).
  split; [|split].
  - intros d1 d2. now apply nodup_id_inj.
  - now apply List.Forall_forall.
  - exact Hs.
Qed.

Lemma reachable_catalog_invariant_witness :
  (forall d, In d (Loki.data coll12) -> 1 <= Loki.loki d <= Loki.maxId coll12)
  /\ StronglySorted loki_lt (Loki.data coll12).
Proof.
  exact (proj2 (reachable_catalog_invariant catalog12 coll12
                  reachable_catalog12 eq_refl)).
Defined.

(** X2: closing a catalog and initialising it again, with the database
    file absent or holding the collection that was in memory, reopens
    it: the promise resolves, the catalog is initialised and not closed,
    and the collection is the one it had before. *)
Theorem close_then_init_reopens (this : LokiExtentMetadata)
    (coll : Loki.Collection) (disk : LoadOutcome) :
  db this = Some coll ->
  disk = NoFile \/ disk = Loaded (Some coll) ->
  let reopened := init disk true (fst (close true this)) in
  snd reopened = Ok tt
  /\ isInitialized (fst reopened) = true
  /\ isClosed (fst reopened) = false
  /\ db (fst reopened) = Some coll.
Proof.
  intros Hdb [-> | ->]; simpl; rewrite ?Hdb; repeat split.
Qed.

Lemma close_then_init_reopens_witness :
  isClosed (fst (close true catalog12)) = true
  /\ isClosed (fst (init NoFile true (fst (close true catalog12)))) = false
  /\ db (fst (init NoFile true (fst (close true catalog12)))) = Some coll12.
Proof.
  split; [reflexivity|].
  exact (proj2 (proj2 (close_then_init_reopens catalog12 coll12 NoFile
                         eq_refl (or_introl eq_refl)))).
Defined.

(** X3: [init] resolves exactly when neither loading nor saving the
    database failed.  A rejected [init] fails with the error of the
    database, leaves both flags as they were, and a load failure leaves
    the whole object untouched; a resolved [init] always leaves an
    initialised, open catalog with a collection. *)
Theorem init_outcome (disk : LoadOutcome) (saveOk : bool)
    (this : LokiExtentMetadata) :
  let after := fst (init disk saveOk this) in
  (snd (init disk saveOk this) = Ok tt
   <-> disk <> LoadFailed /\ saveOk = true)
  /\ (snd (init disk saveOk this) = Ok tt ->
      isInitialized after = true /\ isClosed after = false
      /\ is_Some (db after))
  /\ (snd (init disk saveOk this) <> Ok tt ->
      snd (init disk saveOk this) = Throw IOError
      /\ isInitialized after = isInitialized this
      /\ isClosed after = isClosed this)
  /\ (disk = LoadFailed -> after = this).
Proof.
  destruct disk as [|c|], saveOk; simpl;
    repeat match goal with
           | |- _ /\ _ => split
           | |- _ <-> _ => split
           | |- _ -> _ => intro
           | H : _ /\ _ |- _ => destruct H
           end;
    try discriminate; try congruence; try reflexivity; eauto.
Qed.

(* ===================================================================== *)
(** * Further properties of the catalog: updates, deletes and lookups     *)
(* ===================================================================== *)

Lemma updateExtent_cases e this coll :
  db this = Some coll ->
  (Loki.findOne (Loki.byId (Extent.id e)) coll = None
   /\ updateExtent e this = Ok (set_db this (Loki.insert e coll)))
  \/ (exists d,
        Loki.findOne (Loki.byId (Extent.id e)) coll = Some d
        /\ In d (Loki.data coll) /\ doc_id d = Extent.id e
        /\ updateExtent e this
           = Ok (set_db this (Loki.update (touch e d) coll))).
Proof.
  intros Hdb. unfold updateExtent.
  rewrite (getCollection_Some _ _ Hdb). simpl.
  destruct (Loki.findOne (Loki.byId (Extent.id e)) coll) as [d|] eqn:Hfind.
  - right. exists d. apply findOne_Some_In in Hfind as [Hin Hid].
    repeat split; assumption.
  - left. split; reflexivity.
Qed.

Lemma lookup_set_db this c extentId :
  getExtentPersistencyId extentId (set_db this c)
  = match Loki.findOne (Loki.byId extentId) c with
    | Some d => Ok (Extent.persistencyId (Loki.obj d))
    | None => Throw TypeError
    end.
Proof. reflexivity. Qed.

Lemma lookup_db this c extentId :
  db this = Some c ->
  getExtentPersistencyId extentId this
  = match Loki.findOne (Loki.byId extentId) c with
    | Some d => Ok (Extent.persistencyId (Loki.obj d))
    | None => Throw TypeError
    end.
Proof.
  intros Hdb. unfold getExtentPersistencyId.
  now rewrite (getCollection_Some _ _ Hdb).
Qed.

Lemma findOne_filter i c :
  Loki.findOne (Loki.byId i) c
  = head (List.filter (fun d => String.eqb (doc_id d) i) (Loki.data c)).
Proof.
  unfold Loki.findOne, Loki.find. f_equal.
  apply filter_ext. intros d. apply matches_byId.
Qed.

Lemma filter_map_frame {A} (p : A -> bool) (f : A -> A) l :
  (forall x, p (f x) = p x) -> (forall x, p x = true -> f x = x) ->
  List.filter p (map f l) = List.filter p l.
Proof.
  intros Hp Hf. induction l as [|a l IH]; simpl; [reflexivity|].
  rewrite Hp. destruct (p a) eqn:E; [|exact IH].
  now rewrite (Hf a E), IH.
Qed.

Lemma update_same d c : wf c -> In d (Loki.data c) -> Loki.update d c = c.
Proof.
  intros (Hs & _) Hd. destruct c as [l mx]. unfold Loki.update; simpl in *.
  f_equal. rewrite <- (map_id l) at 2. apply map_ext_in. intros x Hx.
  destruct (Loki.loki x =? Loki.loki d) eqn:E; [|reflexivity].
  apply Z.eqb_eq in E. symmetry. now apply (sorted_loki_inj l).
Qed.

Lemma touch_new e k :
  touch e {| Loki.obj := e; Loki.loki := k |}
  = {| Loki.obj := e; Loki.loki := k |}.
Proof. destruct e. reflexivity. Qed.

Lemma findOne_insert e c :
  wf c -> (forall d, In d (Loki.data c) -> doc_id d <> Extent.id e) ->
  Loki.findOne (Loki.byId (Extent.id e)) (Loki.insert e c)
  = Some {| Loki.obj := e; Loki.loki := Loki.maxId c + 1 |}.
Proof.
  intros Hwf Hfresh.
  destruct (wf_insert e c Hwf Hfresh) as (_ & _ & _ & Hn).
  unfold Loki.insert in *. simpl in Hn.
  apply findOne_unique; [exact Hn| |reflexivity].
  apply in_or_app. right. now left.
Qed.

Lemma findOne_update_touch e d c :
  wf c -> In d (Loki.data c) ->
  Loki.findOne (Loki.byId (doc_id d)) (Loki.update (touch e d) c)
  = Some (touch e d).
Proof.
  intros Hwf Hd.
  pose proof (wf_update_touch e d c Hwf Hd) as (_ & _ & _ & Hn).
  pose proof (update_touch_data e d c Hwf Hd) as Hdata.
  destruct (Loki.update (touch e d) c) as [l' mx'] eqn:Eu. simpl in *.
  apply findOne_unique; [exact Hn| |reflexivity].
  rewrite Hdata. apply in_map_iff. exists d. split; [|exact Hd].
  now rewrite String.eqb_refl.
Qed.

(** X4: on a well-formed catalog [updateExtent] always succeeds, and a
    lookup of the extent right after it succeeds too: it gives the
    [persistencyId] the catalog already had for the id, and the one of
    the new record when the id was not catalogued. *)
Theorem updateExtent_then_lookup (e : IExtentModel) (this : LokiExtentMetadata)
    (coll : Loki.Collection) :
  db this = Some coll -> wf coll ->
  exists this',
    updateExtent e this = Ok this'
    /\ getExtentPersistencyId (Extent.id e) this'
       = Ok match getExtentPersistencyId (Extent.id e) this with
            | Ok known => known
            | Throw _ => Extent.persistencyId e
            end.
Proof.
  intros Hdb Hwf. rewrite (lookup_db this coll _ Hdb).
  destruct (updateExtent_cases e this coll Hdb)
    as [[Hnone Hrun]|(d & Hsome & Hin & Hid & Hrun)];
    eexists; (split; [exact Hrun|]); rewrite lookup_set_db.
  - rewrite Hnone.
    pose proof (proj1 (findOne_None _ _) Hnone) as Hfresh.
    now rewrite (findOne_insert e coll Hwf Hfresh).
  - rewrite Hsome, <- Hid. now rewrite (findOne_update_touch e d coll Hwf Hin).
Qed.

Lemma updateExtent_then_lookup_witness :
  exists this',
    updateExtent extent1_moved catalog12 = Ok this'
    /\ getExtentPersistencyId "e1" this' = Ok "d1".
Proof.
  exact (updateExtent_then_lookup extent1_moved catalog12 coll12 eq_refl
           wf_coll12).
Defined.

(** X5: [updateExtent] is idempotent on a well-formed catalog: repeating
    the call with the same record leaves the catalog exactly as the
    first call left it. *)
Theorem updateExtent_idempotent (e : IExtentModel) (this : LokiExtentMetadata)
    (coll : Loki.Collection) :
  db this = Some coll -> wf coll ->
  exists this',
    updateExtent e this = Ok this' /\ updateExtent e this' = Ok this'.
Proof.
  intros Hdb Hwf.
  destruct (updateExtent_cases e this coll Hdb)
    as [[Hnone Hrun]|(d & Hsome & Hin & Hid & Hrun)];
    eexists; (split; [exact Hrun|]).
  - pose proof (proj1 (findOne_None _ _) Hnone) as Hfresh.
    clear Hnone. rename Hfresh into Hnone.
    pose proof (wf_insert e coll Hwf Hnone) as Hwf'.
    destruct (updateExtent_cases e (set_db this (Loki.insert e coll))
                (Loki.insert e coll) eq_refl)
      as [[Hnone' _]|(d' & Hsome' & Hin' & _ & Hrun')].
    + rewrite (findOne_insert e coll Hwf Hnone) in Hnone'. discriminate.
    + rewrite Hrun'. rewrite (findOne_insert e coll Hwf Hnone) in Hsome'.
      injection Hsome' as <-. rewrite touch_new.
      now rewrite (update_same _ _ Hwf' Hin').
  - pose proof (wf_update_touch e d coll Hwf Hin) as Hwf'.
    destruct (updateExtent_cases e (set_db this (Loki.update (touch e d) coll))
                (Loki.update (touch e d) coll) eq_refl)
      as [[Hnone' _]|(d' & Hsome' & Hin' & _ & Hrun')].
    + rewrite <- Hid, (findOne_update_touch e d coll Hwf Hin) in Hnone'.
      discriminate.
    + rewrite Hrun'.
      rewrite <- Hid, (findOne_update_touch e d coll Hwf Hin) in Hsome'.
      injection Hsome' as <-.
      assert (Htt : touch e (touch e d) = touch e d) by reflexivity.
      rewrite Htt. now rewrite (update_same _ _ Hwf' Hin').
Qed.

Lemma updateExtent_idempotent_witness :
  exists this',
    updateExtent extent1_moved catalog12 = Ok this'
    /\ updateExtent extent1_moved this' = Ok this'.
Proof.
  exact (updateExtent_idempotent extent1_moved catalog12 coll12 eq_refl
           wf_coll12).
Defined.

Lemma findOne_update_touch_other e d c j :
  wf c -> In d (Loki.data c) -> j <> doc_id d ->
  Loki.findOne (Loki.byId j) (Loki.update (touch e d) c)
  = Loki.findOne (Loki.byId j) c.
Proof.
  intros Hwf Hd Hj. rewrite !findOne_filter.
  rewrite (update_touch_data e d c Hwf Hd). f_equal.
  apply filter_map_frame.
  - intros x. now destruct (String.eqb (doc_id x) (doc_id d)).
  - intros x Hx. apply String.eqb_eq in Hx.
    destruct (String.eqb (doc_id x) (doc_id d)) eqn:E; [|reflexivity].
    apply String.eqb_eq in E. congruence.
Qed.

Lemma findOne_insert_other e c j :
  j <> Extent.id e ->
  Loki.findOne (Loki.byId j) (Loki.insert e c) = Loki.findOne (Loki.byId j) c.
Proof.
  intros Hj. rewrite !findOne_filter. unfold Loki.insert; simpl.
  rewrite List.filter_app. simpl. unfold doc_id at 2; simpl.
  assert (E : String.eqb (Extent.id e) j = false).
  { apply String.eqb_neq. congruence. }
  rewrite E. now rewrite app_nil_r.
Qed.

Lemma findOne_findAndRemove_other i c j :
  j <> i ->
  Loki.findOne (Loki.byId j) (Loki.findAndRemove (Loki.byId i) c)
  = Loki.findOne (Loki.byId j) c.
Proof.
  intros Hj. rewrite !findOne_filter, findAndRemove_data. f_equal.
  apply filter_filter_frame. intros x Hx. apply String.eqb_eq in Hx.
  apply negb_true_iff, String.eqb_neq. congruence.
Qed.

Lemma findOne_findAndRemove_same i c :
  Loki.findOne (Loki.byId i) (Loki.findAndRemove (Loki.byId i) c) = None.
Proof.
  apply findOne_None. intros d Hd Hid.
  rewrite findAndRemove_data in Hd. apply filter_In in Hd as [_ Hne].
  apply negb_true_iff, String.eqb_neq in Hne. contradiction.
Qed.

(** X6: [updateExtent e] on a well-formed catalog does not disturb other
    extents: the records with another id are exactly the ones that were
    there before, and the lookup of any other id answers as before. *)
Theorem updateExtent_frame (e : IExtentModel) (this : LokiExtentMetadata)
    (coll : Loki.Collection) :
  db this = Some coll -> wf coll ->
  exists this' coll',
    updateExtent e this = Ok this'
    /\ db this' = Some coll'
    /\ (forall d, doc_id d <> Extent.id e ->
          (In d (Loki.data coll') <-> In d (Loki.data coll)))
    /\ (forall extentId, extentId <> Extent.id e ->
          getExtentPersistencyId extentId this'
          = getExtentPersistencyId extentId this).
Proof.
  intros Hdb Hwf.
  destruct (updateExtent_cases e this coll Hdb)
    as [[Hnone Hrun]|(d0 & Hsome & Hin & Hid & Hrun)];
    eexists _, _; (split; [exact Hrun|]); (split; [reflexivity|]); split.
  - intros d Hd. unfold Loki.insert; simpl. rewrite in_app_iff. simpl.
    split; [|tauto]. intros [H|[<-|[]]]; [exact H|]. now elim Hd.
  - intros j Hj. rewrite lookup_set_db, (lookup_db this coll j Hdb).
    now rewrite findOne_insert_other.
  - intros d Hd. rewrite (update_touch_data e d0 coll Hwf Hin), in_map_iff.
    split.
    + intros (x & Hx & Hxin).
      destruct (String.eqb (doc_id x) (doc_id d0)) eqn:E.
      * subst d. elim Hd. rewrite touch_doc_id.
        apply String.eqb_eq in E. congruence.
      * now subst d.
    + intros Hdin. exists d. split; [|exact Hdin].
      destruct (String.eqb (doc_id d) (doc_id d0)) eqn:E; [|reflexivity].
      apply String.eqb_eq in E. elim Hd. congruence.
  - intros j Hj. rewrite lookup_set_db, (lookup_db this coll j Hdb).
    rewrite findOne_update_touch_other; [reflexivity|exact Hwf|exact Hin|].
    congruence.
Qed.

Lemma updateExtent_frame_witness :
  exists this' coll',
    updateExtent extent1_moved catalog12 = Ok this'
    /\ db this' = Some coll'
    /\ (In {| Loki.obj := extent2; Loki.loki := 2 |} (Loki.data coll'))
    /\ getExtentPersistencyId "e2" this' = Ok "d1".
Proof.
  destruct (updateExtent_frame extent1_moved catalog12 coll12 eq_refl wf_coll12)
    as (this' & coll' & Hrun & Hdb & Hrec & Hlook).
  exists this', coll'. split; [exact Hrun|]. split; [exact Hdb|]. split.
  - apply Hrec; [discriminate|]. simpl. right. now left.
  - rewrite Hlook; [reflexivity|discriminate].
Defined.

(** X7: after [deleteExtent] the lookup of the deleted id fails with the
    [TypeError] of a missing record, whether or not the id was
    catalogued, and the lookup of every other id answers as before. *)
Theorem deleteExtent_then_lookup (extentId : string)
    (this : LokiExtentMetadata) (coll : Loki.Collection) :
  db this = Some coll ->
  exists this',
    deleteExtent extentId this = Ok this'
    /\ getExtentPersistencyId extentId this' = Throw TypeError
    /\ (forall other, other <> extentId ->
          getExtentPersistencyId other this'
          = getExtentPersistencyId other this).
Proof.
  intros Hdb. unfold deleteExtent.
  rewrite (getCollection_Some _ _ Hdb). simpl.
  eexists. split; [reflexivity|]. split.
  - now rewrite lookup_set_db, findOne_findAndRemove_same.
  - intros j Hj. rewrite lookup_set_db, (lookup_db this coll j Hdb).
    now rewrite findOne_findAndRemove_other.
Qed.

Lemma deleteExtent_then_lookup_witness :
  exists this',
    deleteExtent "e1" catalog12 = Ok this'
    /\ getExtentPersistencyId "e1" this' = Throw TypeError
    /\ getExtentPersistencyId "e2" this' = Ok "d1".
Proof.
  destruct (deleteExtent_then_lookup "e1" catalog12 coll12 eq_refl)
    as (this' & Hrun & Hgone & Hother).
  exists this'. split; [exact Hrun|]. split; [exact Hgone|].
  rewrite Hother; [reflexivity|discriminate].
Defined.

(** X8: sequence numbers are never reused.  Deleting an extent and
    cataloguing it again stores the new record whole (also its
    [persistencyId] and [path]) at the end of the collection, under a
    sequence number above every number the collection held before. *)
Theorem delete_then_update_fresh_sequence (e : IExtentModel)
    (this : LokiExtentMetadata) (coll : Loki.Collection) :
  db this = Some coll -> wf coll ->
  exists this1 this2 coll2,
    deleteExtent (Extent.id e) this = Ok this1
    /\ updateExtent e this1 = Ok this2
    /\ db this2 = Some coll2
    /\ Loki.data coll2
       = List.filter (fun d => negb (String.eqb (doc_id d) (Extent.id e)))
           (Loki.data coll)
         ++ [ {| Loki.obj := e; Loki.loki := Loki.maxId coll + 1 |} ]
    /\ (forall d, In d (Loki.data coll) -> Loki.loki d < Loki.maxId coll + 1)
    /\ getExtentPersistencyId (Extent.id e) this2
       = Ok (Extent.persistencyId e).
Proof.
  intros Hdb Hwf. unfold deleteExtent.
  rewrite (getCollection_Some _ _ Hdb). simpl.
  set (coll1 := Loki.findAndRemove (Loki.byId (Extent.id e)) coll).
  assert (Hwf1 : wf coll1) by now apply wf_findAndRemove.
  assert (Hnone : Loki.findOne (Loki.byId (Extent.id e)) coll1 = None)
    by apply findOne_findAndRemove_same.
  destruct (updateExtent_cases e (set_db this coll1) coll1 eq_refl)
    as [[_ Hrun]|(d & Hsome & _)]; [|congruence].
  eexists _, _, _. split; [reflexivity|]. split; [exact Hrun|].
  split; [reflexivity|]. split; [|split].
  - unfold Loki.insert. cbn [Loki.data]. unfold coll1.
    rewrite findAndRemove_data. reflexivity.
  - intros d Hd. destruct Hwf as (_ & _ & Hb & _).
    rewrite List.Forall_forall in Hb. apply Hb in Hd. lia.
  - rewrite lookup_set_db.
    now rewrite (findOne_insert e coll1 Hwf1 (proj1 (findOne_None _ _) Hnone)).
Qed.

Lemma delete_then_update_fresh_sequence_witness :
  exists this1 this2 coll2,
    deleteExtent "e1" catalog12 = Ok this1
    /\ updateExtent extent1_moved this1 = Ok this2
    /\ db this2 = Some coll2
    /\ Loki.data coll2
       = [ {| Loki.obj := extent2; Loki.loki := 2 |};
           {| Loki.obj := extent1_moved; Loki.loki := 3 |} ]
    /\ getExtentPersistencyId "e1" this2 = Ok "d2".
Proof.
  destruct (delete_then_update_fresh_sequence extent1_moved catalog12 coll12
              eq_refl wf_coll12)
    as (this1 & this2 & coll2 & Hdel & Hupd & Hdb & Hdata & _ & Hlook).
  exists this1, this2, coll2. repeat split; assumption.
Defined.

Lemma filter_comm {A} (p q : A -> bool) l :
  List.filter p (List.filter q l) = List.filter q (List.filter p l).
Proof.
  rewrite <- !filter_andb. apply filter_ext. intros x. apply andb_comm.
Qed.

(** X9: deletions commute: deleting two ids in either order gives the
    same outcome, the same catalog when it is initialised and the same
    failure when it is not. *)
Theorem deleteExtent_commute (i j : string) (this : LokiExtentMetadata) :
  (this1 ← deleteExtent i this; deleteExtent j this1)
  = (this1 ← deleteExtent j this; deleteExtent i this1).
Proof.
  unfold deleteExtent, getCollection.
  destruct (db this) as [coll|]; simpl; [|reflexivity].
  unfold set_db, Loki.findAndRemove; simpl. now rewrite filter_comm.
Qed.

Lemma filter_map_comm {A} (p : A -> bool) (f : A -> A) l :
  (forall x, p (f x) = p x) ->
  List.filter p (map f l) = map f (List.filter p l).
Proof.
  intros Hp. induction l as [|a l IH]; simpl; [reflexivity|].
  rewrite Hp. destruct (p a); simpl; now rewrite IH.
Qed.

(** X10: operations on different extents commute: on a well-formed
    catalog, updating one extent and deleting another give the same
    catalog in either order. *)
Theorem updateExtent_deleteExtent_commute (e : IExtentModel) (i : string)
    (this : LokiExtentMetadata) (coll : Loki.Collection) :
  db this = Some coll -> wf coll -> i <> Extent.id e ->
  exists final,
    (this1 ← updateExtent e this; deleteExtent i this1) = Ok final
    /\ (this1 ← deleteExtent i this; updateExtent e this1) = Ok final.
Proof.
  intros Hdb Hwf Hi.
  set (coll1 := Loki.findAndRemove (Loki.byId i) coll).
  assert (Hwf1 : wf coll1) by now apply wf_findAndRemove.
  assert (Hdel : deleteExtent i this = Ok (set_db this coll1)).
  { unfold deleteExtent. now rewrite (getCollection_Some _ _ Hdb). }
  assert (Hfind1 : Loki.findOne (Loki.byId (Extent.id e)) coll1
                   = Loki.findOne (Loki.byId (Extent.id e)) coll).
  { apply findOne_findAndRemove_other. congruence. }
  rewrite Hdel.
  destruct (updateExtent_cases e this coll Hdb)
    as [[Hnone Hrun]|(d & Hsome & Hin & Hid & Hrun)];
    destruct (updateExtent_cases e (set_db this coll1) coll1 eq_refl)
      as [[Hnone1 Hrun1]|(d1 & Hsome1 & Hin1 & Hid1 & Hrun1)];
    try congruence; rewrite Hrun; simpl;
    change (Ok (set_db this coll1) ≫= updateExtent e)
      with (updateExtent e (set_db this coll1));
    rewrite Hrun1; eexists; (split; [reflexivity|]);
    unfold set_db; simpl; do 2 f_equal.
  - unfold Loki.findAndRemove, Loki.insert; simpl.
    rewrite List.filter_app. simpl. rewrite matches_byId.
    unfold doc_id at 1; simpl.
    assert (E : String.eqb (Extent.id e) i = false).
    { apply String.eqb_neq. congruence. }
    now rewrite E.
  - assert (d1 = d) as -> by congruence.
    pose proof (update_touch_data e d coll Hwf Hin) as Hl.
    pose proof (update_touch_data e d coll1 Hwf1 Hin1) as Hr.
    destruct (Loki.update (touch e d) coll) as [l mx] eqn:El.
    destruct (Loki.update (touch e d) coll1) as [r mr] eqn:Er.
    assert (Hmx : mx = Loki.maxId coll)
      by (change mx with (Loki.maxId {| Loki.data := l; Loki.maxId := mx |});
          now rewrite <- El).
    assert (Hmr : mr = Loki.maxId coll)
      by (change mr with (Loki.maxId {| Loki.data := r; Loki.maxId := mr |});
          now rewrite <- Er).
    simpl in Hl, Hr. subst l r mx mr.
    unfold Loki.findAndRemove; simpl. f_equal.
    apply (f_equal (fun l => {| Loki.data := l; Loki.maxId := Loki.maxId coll |})).
    symmetry. apply filter_map_comm.
    intros x. rewrite !matches_byId.
    now destruct (String.eqb (doc_id x) (doc_id d)).
Qed.

Lemma updateExtent_deleteExtent_commute_witness :
  exists final,
    (this1 ← updateExtent extent1_moved catalog12; deleteExtent "e2" this1)
    = Ok final
    /\ (this1 ← deleteExtent "e2" catalog12; updateExtent extent1_moved this1)
       = Ok final.
Proof.
  apply (updateExtent_deleteExtent_commute extent1_moved "e2" catalog12 coll12).
  - reflexivity.
  - exact wf_coll12.
  - discriminate.
Defined.

(* ===================================================================== *)
(** * Further properties of the catalog: listing                          *)
(* ===================================================================== *)

Lemma sorted_app_l l1 l2 :
  StronglySorted loki_lt (l1 ++ l2) -> StronglySorted loki_lt l1.
Proof.
  induction l1 as [|a l1 IH]; simpl; intros Hs; [constructor|].
  apply StronglySorted_inv in Hs. destruct Hs as [Hs Hall].
  constructor; [now apply IH|].
  rewrite List.Forall_forall in *. intros x Hx. apply Hall, in_or_app.
  now left.
Qed.

Lemma sorted_firstn k l :
  StronglySorted loki_lt l -> StronglySorted loki_lt (firstn k l).
Proof.
  intros Hs. rewrite <- (firstn_skipn k l) in Hs. now apply sorted_app_l in Hs.
Qed.

Lemma In_firstn {A} k (l : list A) x : In x (firstn k l) -> In x l.
Proof.
  intros Hx. rewrite <- (firstn_skipn k l). apply in_or_app. now left.
Qed.

(** Whatever the page limit, a page that is returned is a prefix of the
    matching records, and a marker that is returned is the sequence
    number of the last record of the page. *)
Lemma listExtents_Ok_inv id maxResults marker queryTime UnmodifiedTime
    this coll docs nextMarker :
  db this = Some coll ->
  listExtents id maxResults marker queryTime UnmodifiedTime this
  = Ok (docs, nextMarker) ->
  (exists k,
     docs = firstn k
              (Loki.find
                 (listExtents_query id marker queryTime UnmodifiedTime) coll))
  /\ (forall m, nextMarker = Some m ->
        exists front d, docs = front ++ [d] /\ Loki.loki d = m).
Proof.
  intros Hdb. unfold listExtents.
  rewrite (getCollection_Some _ _ Hdb). simpl.
  set (found := Loki.find _ coll).
  set (n := default 5000 maxResults).
  assert (Hslice : exists k, Loki.limit n found = firstn k found).
  { unfold Loki.limit, Loki.slice0. destruct (n <? 0); eauto. }
  destruct Hslice as [k Hk]. rewrite Hk.
  destruct (Z.of_nat (length (firstn k found)) <? n).
  - intros [= <- <-]. split; [now exists k|]. intros m [=].
  - destruct (last (firstn k found)) as [d|] eqn:El; [|discriminate].
    intros [= <- <-]. split; [now exists k|].
    intros m [= <-]. apply last_Some in El as [front El].
    now exists front, d.
Qed.

(** X11: on a well-formed catalog a returned page lists its records in
    strictly increasing sequence order, every record lies above the
    marker that was passed, and a returned [nextMarker] is a sequence
    number of the collection, at least that of every record of the page
    and strictly above the marker that was passed: markers only move
    forward. *)
Theorem listExtents_page_ordered (id : option string)
    (maxResults marker queryTime UnmodifiedTime : option Z)
    (this : LokiExtentMetadata) (coll : Loki.Collection)
    (docs : list Loki.Doc) (nextMarker : option Z) :
  db this = Some coll -> wf coll ->
  listExtents id maxResults marker queryTime UnmodifiedTime this
  = Ok (docs, nextMarker) ->
  StronglySorted loki_lt docs
  /\ (forall d, In d docs ->
        1 <= Loki.loki d <= Loki.maxId coll
        /\ (forall m, marker = Some m -> m < Loki.loki d))
  /\ (forall m', nextMarker = Some m' ->
        (forall d, In d docs -> Loki.loki d <= m')
        /\ 1 <= m' <= Loki.maxId coll
        /\ (forall m, marker = Some m -> m < m')).
Proof.
  intros Hdb Hwf Hrun.
  destruct (listExtents_Ok_inv _ _ _ _ _ _ _ _ _ Hdb Hrun) as [[k Hk] Hlast].
  set (q := listExtents_query id marker queryTime UnmodifiedTime) in *.
  assert (Hsorted : StronglySorted loki_lt docs).
  { rewrite Hk. apply sorted_firstn, sorted_filter. now destruct Hwf. }
  assert (Hin : forall d, In d docs ->
                  1 <= Loki.loki d <= Loki.maxId coll
                  /\ (forall m, marker = Some m -> m < Loki.loki d)).
  { intros d Hd. rewrite Hk in Hd. apply In_firstn in Hd.
    unfold Loki.find in Hd. apply filter_In in Hd as [Hd Hm].
    split.
    - destruct Hwf as (_ & _ & Hb & _). rewrite List.Forall_forall in Hb.
      now apply Hb.
    - unfold q in Hm. apply matches_selected in Hm. apply Hm. }
  split; [exact Hsorted|]. split; [exact Hin|].
  intros m' Hm'. destruct (Hlast m' Hm') as (front & d & Hdocs & Hd).
  assert (Hdin : In d docs).
  { rewrite Hdocs. apply in_or_app. right. now left. }
  subst m'. split; [|split].
  - intros x Hx. rewrite Hdocs in Hx, Hsorted.
    apply in_app_or in Hx. destruct Hx as [Hx|[<-|[]]]; [|lia].
    apply Z.lt_le_incl. apply (sorted_app_lt _ _ x d Hsorted Hx). now left.
  - now apply Hin.
  - now apply Hin.
Qed.

Lemma listExtents_page_ordered_witness :
  listExtents None (Some 1) (Some 1) None None catalog12
  = Ok ([ {| Loki.obj := extent2; Loki.loki := 2 |} ], Some 2)
  /\ StronglySorted loki_lt [ {| Loki.obj := extent2; Loki.loki := 2 |} ]
  /\ 1 < 2 <= Loki.maxId coll12.
Proof.
  destruct (listExtents_page_ordered None (Some 1) (Some 1) None None
              catalog12 coll12 [ {| Loki.obj := extent2; Loki.loki := 2 |} ]
              (Some 2) eq_refl wf_coll12 eq_refl) as (Hsorted & _ & Hnext).
  split; [reflexivity|]. split; [exact Hsorted|].
  destruct (Hnext 2 eq_refl) as (_ & Hbound & Hprogress).
  split; [now apply Hprogress|apply Hbound].
Defined.

(** X12: on a well-formed catalog a listing with an exact id returns at
    most one record, and it carries that id. *)
Theorem listExtents_by_id_single (i : string)
    (maxResults marker queryTime UnmodifiedTime : option Z)
    (this : LokiExtentMetadata) (coll : Loki.Collection)
    (docs : list Loki.Doc) (nextMarker : option Z) :
  db this = Some coll -> wf coll ->
  listExtents (Some i) maxResults marker queryTime UnmodifiedTime this
  = Ok (docs, nextMarker) ->
  (length docs <= 1)%nat /\ (forall d, In d docs -> doc_id d = i).
Proof.
  intros Hdb Hwf Hrun.
  destruct (listExtents_Ok_inv _ _ _ _ _ _ _ _ _ Hdb Hrun) as [[k Hk] _].
  assert (Hin : forall d, In d docs -> In d (Loki.data coll) /\ doc_id d = i).
  { intros d Hd. rewrite Hk in Hd. apply In_firstn in Hd.
    unfold Loki.find in Hd. apply filter_In in Hd as [Hd Hm].
    split; [exact Hd|]. apply matches_selected in Hm.
    now apply (proj1 Hm). }
  assert (Hnd : NoDup docs).
  { apply sorted_NoDup. rewrite Hk.
    apply sorted_firstn, sorted_filter. now destruct Hwf. }
  split; [|intros d Hd; now apply Hin].
  destruct docs as [|a [|b rest]]; simpl; [lia|lia|].
  exfalso. apply NoDup_cons in Hnd as [Ha _]. apply Ha.
  destruct Hwf as (_ & _ & _ & Hn).
  destruct (Hin a (or_introl eq_refl)) as [Hain Haid].
  destruct (Hin b (or_intror (or_introl eq_refl))) as [Hbin Hbid].
  rewrite (nodup_id_inj _ a b Hn Hain Hbin) by congruence.
  apply list_elem_of_In. now left.
Qed.

Lemma listExtents_by_id_single_witness :
  listExtents (Some "e2") None None None None catalog12
  = Ok ([ {| Loki.obj := extent2; Loki.loki := 2 |} ], None)
  /\ (length [ {| Loki.obj := extent2; Loki.loki := 2 |} ] <= 1)%nat.
Proof.
  split; [reflexivity|].
  exact (proj1 (listExtents_by_id_single "e2" None None None None catalog12
                  coll12 _ None eq_refl wf_coll12 eq_refl)).
Defined.

(** X13: a page limit that is not positive never ends an enumeration
    normally.  With limit 0, or with a negative limit [-k] when at most
    [k] records match, the call fails with [TypeError]; with a negative
    limit [-k] and more than [k] matching records the page holds all
    matching records but the last [k], and it always carries a marker. *)
Theorem listExtents_nonpositive_limit (id : option string) (n : Z)
    (marker queryTime UnmodifiedTime : option Z)
    (this : LokiExtentMetadata) (coll : Loki.Collection) :
  db this = Some coll -> n <= 0 ->
  let found :=
    Loki.find (listExtents_query id marker queryTime UnmodifiedTime) coll in
  (n = 0 \/ Z.of_nat (length found) <= - n ->
   listExtents id (Some n) marker queryTime UnmodifiedTime this
   = Throw TypeError)
  /\ (n < 0 -> - n < Z.of_nat (length found) ->
      exists front d,
        firstn (length found - Z.to_nat (- n)) found = front ++ [d]
        /\ listExtents id (Some n) marker queryTime UnmodifiedTime this
           = Ok (front ++ [d], Some (Loki.loki d))).
Proof.
  intros Hdb Hn found. unfold listExtents.
  rewrite (getCollection_Some _ _ Hdb). simpl. fold found.
  unfold Loki.limit, Loki.slice0. split.
  - intros Hcase.
    assert (Hnil : (if n <? 0
                    then firstn (Z.to_nat (Z.of_nat (length found) + n)) found
                    else firstn (Z.to_nat n) found) = []).
    { destruct (n <? 0) eqn:E.
      - apply Z.ltb_lt in E.
        replace (Z.to_nat (Z.of_nat (length found) + n)) with 0%nat by lia.
        reflexivity.
      - apply Z.ltb_ge in E. replace (Z.to_nat n) with 0%nat by lia.
        reflexivity. }
    rewrite Hnil.
    change (Z.of_nat (length (@nil Loki.Doc))) with 0.
    assert (E : (0 <? n) = false) by (apply Z.ltb_ge; lia).
    now rewrite E.
  - intros Hneg Hmore.
    assert (E : (n <? 0) = true) by now apply Z.ltb_lt.
    rewrite E.
    replace (Z.to_nat (Z.of_nat (length found) + n))
      with (length found - Z.to_nat (- n))%nat by lia.
    set (k := (length found - Z.to_nat (- n))%nat).
    assert (Hlen : length (firstn k found) = k).
    { apply firstn_length_le. unfold k. lia. }
    rewrite Hlen.
    assert (E' : (Z.of_nat k <? n) = false) by (apply Z.ltb_ge; lia).
    rewrite E'.
    destruct (last (firstn k found)) as [d|] eqn:El.
    + apply last_Some in El as [front El].
      exists front, d. rewrite El. split; reflexivity.
    + apply last_None in El. rewrite El in Hlen. simpl in Hlen.
      unfold k in Hlen. lia.
Qed.

Lemma listExtents_nonpositive_limit_witness :
  listExtents None (Some 0) None None None catalog12 = Throw TypeError
  /\ listExtents None (Some (-2)) None None None catalog12 = Throw TypeError
  /\ exists front d,
       listExtents None (Some (-1)) None None None catalog12
       = Ok (front ++ [d], Some (Loki.loki d)).
Proof.
  destruct (listExtents_nonpositive_limit None 0 None None None catalog12
              coll12 eq_refl ltac:(lia)) as [Hzero _].
  destruct (listExtents_nonpositive_limit None (-2) None None None catalog12
              coll12 eq_refl ltac:(lia)) as [Hall _].
  destruct (listExtents_nonpositive_limit None (-1) None None None catalog12
              coll12 eq_refl ltac:(lia)) as [_ Hsome].
  split; [apply Hzero; now left|].
  split; [apply Hall; right; simpl; lia|].
  destruct (Hsome ltac:(lia) ltac:(simpl; lia)) as (front & d & _ & Hrun).
  now exists front, d.
Defined.

(** The record an update leaves under the extent's id carries the
    extent's modification time. *)
Lemma updateExtent_stamps e this coll this' coll' :
  db this = Some coll -> wf coll -> updateExtent e this = Ok this' ->
  db this' = Some coll' ->
  forall d, In d (Loki.data coll') -> doc_id d = Extent.id e ->
            Extent.LastModifyInMS (Loki.obj d) = Extent.LastModifyInMS e
            /\ Extent.size (Loki.obj d) = Extent.size e.
Proof.
  intros Hdb Hwf Hrun Hdb' d Hd Hid.
  destruct (updateExtent_cases e this coll Hdb)
    as [[Hnone Hrun']|(d0 & Hsome & Hin & Hid0 & Hrun')];
    rewrite Hrun' in Hrun; injection Hrun as <-; simpl in Hdb';
    injection Hdb' as <-.
  - unfold Loki.insert in Hd; simpl in Hd. apply in_app_or in Hd.
    destruct Hd as [Hd|[<-|[]]]; [|split; reflexivity].
    exfalso. now apply (proj1 (findOne_None _ _) Hnone d).
  - rewrite (update_touch_data e d0 coll Hwf Hin) in Hd.
    apply in_map_iff in Hd as (x & <- & Hx).
    destruct (String.eqb (doc_id x) (doc_id d0)) eqn:E; [split; reflexivity|].
    apply String.eqb_neq in E. elim E. congruence.
Qed.

(** X14: an extent that was just updated is not reported as aged.  For
    integer millisecond values in the range where JavaScript computes
    the age threshold exactly: after [updateExtent e], a listing whose
    threshold [queryTime - UnmodifiedTime * 1000] does not exceed
    [e.LastModifyInMS] returns no record with [e]'s id, whatever the
    other arguments. *)
Theorem updated_extent_not_aged (e : IExtentModel)
    (this this' : LokiExtentMetadata) (coll : Loki.Collection)
    (id : option string) (maxResults marker UnmodifiedTime : option Z)
    (getTime : Z) (docs : list Loki.Doc) (nextMarker : option Z) :
  db this = Some coll -> wf coll ->
  updateExtent e this = Ok this' ->
  exact_in_double getTime ->
  exact_in_double (default 0 UnmodifiedTime * 1000) ->
  exact_in_double (getTime - default 0 UnmodifiedTime * 1000) ->
  exact_in_double (Extent.LastModifyInMS e) ->
  getTime - default 0 UnmodifiedTime * 1000 <= Extent.LastModifyInMS e ->
  listExtents id maxResults marker (Some getTime) UnmodifiedTime this'
  = Ok (docs, nextMarker) ->
  forall d, In d docs -> doc_id d <> Extent.id e.
Proof.
  intros Hdb Hwf Hupd _ _ _ _ Hfresh Hrun d Hd Hid.
  destruct (updateExtent_wf e this coll this' Hdb Hwf Hupd)
    as (coll' & Hdb' & _).
  destruct (listExtents_Ok_inv _ _ _ _ _ _ _ _ _ Hdb' Hrun) as [[k Hk] _].
  rewrite Hk in Hd. apply In_firstn in Hd.
  unfold Loki.find in Hd. apply filter_In in Hd as [Hd Hm].
  apply matches_selected in Hm. destruct Hm as (_ & Hage & _).
  specialize (Hage getTime eq_refl).
  destruct (updateExtent_stamps e this coll this' coll' Hdb Hwf Hupd Hdb'
              d Hd Hid) as [Hstamp _].
  lia.
Qed.

Lemma updated_extent_not_aged_witness :
  exists this',
    updateExtent extent1_moved catalog12 = Ok this'
    /\ listExtents None None None (Some 1300) (Some 1) this'
       = Ok ([ {| Loki.obj := extent2; Loki.loki := 2 |} ], None)
    /\ doc_id {| Loki.obj := extent2; Loki.loki := 2 |} <> "e1".
Proof.
  eexists. split; [reflexivity|]. split; [reflexivity|].
  apply (updated_extent_not_aged extent1_moved catalog12 _ coll12
           None None None (Some 1) 1300 _ None eq_refl wf_coll12 eq_refl
           ltac:(apply exact_in_double_range; lia)
           ltac:(apply exact_in_double_range; simpl; lia)
           ltac:(apply exact_in_double_range; simpl; lia)
           ltac:(apply exact_in_double_range; simpl; lia)
           ltac:(simpl; lia) eq_refl).
  now left.
Defined.

(** X15: a record catalogued while an enumeration is under way is not
    skipped by it: the new record is stored last, and its sequence
    number lies above every [nextMarker] the catalog has handed out, so
    the continuation of the enumeration still selects it. *)
Theorem insert_after_marker (e : IExtentModel) (this : LokiExtentMetadata)
    (coll : Loki.Collection) (id : option string)
    (maxResults marker queryTime UnmodifiedTime : option Z)
    (docs : list Loki.Doc) (m : Z) :
  db this = Some coll -> wf coll ->
  (forall d, In d (Loki.data coll) -> doc_id d <> Extent.id e) ->
  listExtents id maxResults marker queryTime UnmodifiedTime this
  = Ok (docs, Some m) ->
  exists this' coll' new,
    updateExtent e this = Ok this'
    /\ db this' = Some coll'
    /\ last (Loki.data coll') = Some new
    /\ Loki.obj new = e
    /\ m < Loki.loki new
    /\ Loki.matches (listExtents_query None (Some m) None None) new = true.
Proof.
  intros Hdb Hwf Hfresh Hrun.
  destruct (listExtents_Ok_inv _ _ _ _ _ _ _ _ _ Hdb Hrun) as [[k Hk] Hlast].
  destruct (Hlast m eq_refl) as (front & d & Hdocs & Hm).
  assert (Hd : In d (Loki.data coll)).
  { assert (Hdin : In d docs)
      by (rewrite Hdocs; apply in_or_app; right; now left).
    rewrite Hk in Hdin. apply In_firstn in Hdin.
    unfold Loki.find in Hdin. now apply filter_In in Hdin. }
  assert (Hbound : m <= Loki.maxId coll).
  { destruct Hwf as (_ & _ & Hb & _). rewrite List.Forall_forall in Hb.
    apply Hb in Hd. lia. }
  destruct (updateExtent_cases e this coll Hdb)
    as [[Hnone Hupd]|(d0 & _ & Hin0 & Hid0 & _)];
    [|exfalso; now apply (Hfresh d0)].
  exists (set_db this (Loki.insert e coll)), (Loki.insert e coll),
         {| Loki.obj := e; Loki.loki := Loki.maxId coll + 1 |}.
  split; [exact Hupd|]. split; [reflexivity|].
  split; [apply last_snoc|]. split; [reflexivity|].
  split; [simpl; lia|].
  apply matches_selected. unfold selected. split; [|split].
  - intros i [=].
  - intros t [=].
  - intros m0 [= <-]. simpl. lia.
Qed.

Lemma insert_after_marker_witness :
  exists this' coll' new,
    updateExtent extent3 catalog12 = Ok this'
    /\ db this' = Some coll'
    /\ last (Loki.data coll') = Some new
    /\ Loki.obj new = extent3
    /\ 1 < Loki.loki new.
Proof.
  destruct (insert_after_marker extent3 catalog12 coll12 None (Some 1) None
              None None [ {| Loki.obj := extent1; Loki.loki := 1 |} ] 1
              eq_refl wf_coll12)
    as (this' & coll' & new & Hupd & Hdb & Hlast & Hobj & Hlt & _).
  - simpl. intros d [<-|[<-|[]]]; discriminate.
  - reflexivity.
  - exists this', coll', new. repeat split; assumption.
Defined.

(* ===================================================================== *)
(** * Enumerating while the catalog changes                               *)
(* ===================================================================== *)

Lemma listExtents_None_all id maxResults marker queryTime UnmodifiedTime
    this coll docs :
  db this = Some coll ->
  listExtents id maxResults marker queryTime UnmodifiedTime this
  = Ok (docs, None) ->
  docs = Loki.find (listExtents_query id marker queryTime UnmodifiedTime) coll.
Proof.
  intros Hdb. unfold listExtents.
  rewrite (getCollection_Some _ _ Hdb). simpl.
  set (found := Loki.find _ coll).
  set (n := default 5000 maxResults).
  unfold Loki.limit, Loki.slice0.
  destruct (n <? 0) eqn:En.
  - apply Z.ltb_lt in En.
    set (page := firstn _ found).
    assert (E : (Z.of_nat (length page) <? n) = false)
      by (apply Z.ltb_ge; lia).
    rewrite E. destruct (last page); discriminate.
  - set (page := firstn (Z.to_nat n) found).
    destruct (Z.of_nat (length page) <? n) eqn:E.
    + intros [= <-]. apply Z.ltb_lt in E. unfold page in *.
      rewrite length_firstn in E. apply firstn_all2. lia.
    + destruct (last page); discriminate.
Qed.

Lemma sorted_app_intro l1 l2 :
  StronglySorted loki_lt l1 -> StronglySorted loki_lt l2 ->
  (forall x y, In x l1 -> In y l2 -> Loki.loki x < Loki.loki y) ->
  StronglySorted loki_lt (l1 ++ l2).
Proof.
  induction 1 as [|a l1 Hs IH Hall]; simpl; intros Hs2 Hlt; [exact Hs2|].
  constructor.
  - apply IH; [exact Hs2|]. intros x y Hx Hy. apply Hlt; [now right|exact Hy].
  - rewrite List.Forall_forall in *. intros y Hy.
    apply in_app_or in Hy as [Hy|Hy]; [now apply Hall|].
    apply Hlt; [now left|exact Hy].
Qed.

(** An operation on another extent keeps a record, and every operation
    keeps the catalog well formed. *)
Lemma runOp_keeps op this coll :
  db this = Some coll -> wf coll ->
  exists coll',
    db (runOp op this) = Some coll' /\ wf coll'
    /\ (forall d, In d (Loki.data coll) -> op_id op <> doc_id d ->
          In d (Loki.data coll')).
Proof.
  intros Hdb Hwf. destruct op as [e|i]; unfold runOp.
  - destruct (updateExtent_cases e this coll Hdb)
      as [[Hnone Hrun]|(d0 & Hsome & Hin & Hid & Hrun)]; rewrite Hrun.
    + exists (Loki.insert e coll). split; [reflexivity|]. split.
      * apply wf_insert; [exact Hwf|]. now apply findOne_None.
      * intros d Hd _. unfold Loki.insert; simpl. apply in_or_app. now left.
    + exists (Loki.update (touch e d0) coll). split; [reflexivity|]. split.
      * now apply wf_update_touch.
      * intros d Hd Hne. rewrite (update_touch_data e d0 coll Hwf Hin).
        apply in_map_iff. exists d. split; [|exact Hd].
        destruct (String.eqb (doc_id d) (doc_id d0)) eqn:E; [|reflexivity].
        apply String.eqb_eq in E. simpl in Hne. elim Hne. congruence.
  - unfold deleteExtent. rewrite (getCollection_Some _ _ Hdb). simpl.
    exists (Loki.findAndRemove (Loki.byId i) coll).
    split; [reflexivity|]. split; [now apply wf_findAndRemove|].
    intros d Hd Hne. rewrite findAndRemove_data. apply filter_In.
    split; [exact Hd|]. apply negb_true_iff, String.eqb_neq.
    simpl in Hne. congruence.
Qed.

Lemma runOps_keeps ops :
  forall this coll,
    db this = Some coll -> wf coll ->
    exists coll',
      db (runOps ops this) = Some coll' /\ wf coll'
      /\ (forall d, In d (Loki.data coll) ->
            (forall op, In op ops -> op_id op <> doc_id d) ->
            In d (Loki.data coll')).
Proof.
  unfold runOps. induction ops as [|op ops IH]; intros this coll Hdb Hwf.
  - exists coll. simpl. split; [exact Hdb|]. split; [exact Hwf|]. auto.
  - destruct (runOp_keeps op this coll Hdb Hwf) as (c1 & Hdb1 & Hwf1 & Hkeep1).
    destruct (IH (runOp op this) c1 Hdb1 Hwf1) as (c2 & Hdb2 & Hwf2 & Hkeep2).
    exists c2. cbn [fold_left]. split; [exact Hdb2|]. split; [exact Hwf2|].
    intros d Hd Hops. apply Hkeep2.
    + apply Hkeep1; [exact Hd|]. apply Hops. now left.
    + intros op' Hop'. apply Hops. now right.
Qed.

Lemma runOp_maxId op this coll coll' :
  db this = Some coll -> db (runOp op this) = Some coll' ->
  Loki.maxId coll' <= Loki.maxId coll + 1.
Proof.
  intros Hdb. destruct op as [e|i]; unfold runOp.
  - destruct (updateExtent_cases e this coll Hdb)
      as [[Hnone Hrun]|(d0 & Hsome & Hin & Hid & Hrun)]; rewrite Hrun;
      intros [= <-]; simpl; lia.
  - unfold deleteExtent. rewrite (getCollection_Some _ _ Hdb). simpl.
    intros [= <-]. simpl. lia.
Qed.

Lemma runOps_maxId ops :
  forall this coll coll',
    db this = Some coll -> wf coll -> db (runOps ops this) = Some coll' ->
    Loki.maxId coll' <= Loki.maxId coll + Z.of_nat (length ops).
Proof.
  unfold runOps. induction ops as [|op ops IH]; intros this coll coll' Hdb Hwf.
  - simpl. rewrite Hdb. intros [= <-]. lia.
  - cbn [fold_left]. intros Hdb'.
    destruct (runOp_keeps op this coll Hdb Hwf) as (c1 & Hdb1 & Hwf1 & _).
    pose proof (runOp_maxId op this coll c1 Hdb Hdb1).
    pose proof (IH (runOp op this) c1 coll' Hdb1 Hwf1 Hdb').
    cbn [length]. lia.
Qed.

Section Interleaved.

Variables (id : option string) (maxResults queryTime UnmodifiedTime : option Z).

(** What one enumeration delivers, whatever happens between its calls:
    records in strictly increasing sequence order, all above the marker
    it started from, and among them every selected record that no
    operation touched. *)
Lemma listAllPagesDuring_sound (fuel : nat) :
  forall (between : list (list CatalogOp)) (marker : option Z)
         (this : LokiExtentMetadata) (coll : Loki.Collection)
         (all : list Loki.Doc),
    db this = Some coll -> wf coll ->
    listAllPagesDuring fuel between id maxResults marker queryTime
      UnmodifiedTime this = Some (Ok all) ->
    StronglySorted loki_lt all
    /\ (forall x, In x all -> forall m, marker = Some m -> m < Loki.loki x)
    /\ (forall d, In d (Loki.data coll) ->
          selected id marker queryTime UnmodifiedTime d ->
          untouched d between -> In d all).
Proof.
  induction fuel as [|fuel IH];
    intros between marker this coll all Hdb Hwf Hrun; [discriminate|].
  simpl in Hrun.
  destruct (listExtents id maxResults marker queryTime UnmodifiedTime this)
    as [[docs [m'|]]|e] eqn:Hpage; [| |discriminate].
  - (* a page with a marker: the enumeration goes on *)
    destruct (listAllPagesDuring fuel (tail between) id maxResults (Some m')
                queryTime UnmodifiedTime (runOps (hd [] between) this))
      as [[rest|e]|] eqn:Hrec; try discriminate.
    injection Hrun as <-.
    destruct (runOps_keeps (hd [] between) this coll Hdb Hwf)
      as (coll' & Hdb' & Hwf' & Hkeep).
    destruct (IH _ _ _ _ _ Hdb' Hwf' Hrec) as (Hsrest & Habove & Hfound').
    destruct (listExtents_Ok_inv _ _ _ _ _ _ _ _ _ Hdb Hpage) as [[k Hk] Hlast].
    destruct (Hlast m' eq_refl) as (front & dl & Hdocs & Hdl).
    set (found :=
           Loki.find (listExtents_query id marker queryTime UnmodifiedTime)
             coll) in *.
    assert (Hsfound : StronglySorted loki_lt found).
    { apply sorted_filter. now destruct Hwf. }
    assert (Hsplit : found = (front ++ [dl]) ++ skipn k found).
    { rewrite <- Hdocs, Hk. symmetry. apply firstn_skipn. }
    assert (Hsdocs : StronglySorted loki_lt docs).
    { rewrite Hk. now apply sorted_firstn. }
    assert (Hle : forall x, In x docs -> Loki.loki x <= m').
    { intros x Hx. rewrite Hdocs in Hx, Hsdocs. subst m'.
      apply in_app_or in Hx as [Hx|[<-|[]]]; [|lia].
      apply Z.lt_le_incl. apply (sorted_app_lt _ _ x dl Hsdocs Hx). now left. }
    assert (Hsel : forall x, In x docs ->
                     selected id marker queryTime UnmodifiedTime x).
    { intros x Hx. rewrite Hk in Hx. apply In_firstn in Hx.
      unfold found, Loki.find in Hx. apply filter_In in Hx as [_ Hx].
      now apply matches_selected. }
    split; [|split].
    + apply sorted_app_intro; [exact Hsdocs|exact Hsrest|].
      intros x y Hx Hy. apply Hle in Hx.
      specialize (Habove y Hy m' eq_refl). unfold loki_lt. lia.
    + intros x Hx m ->. apply in_app_or in Hx as [Hx|Hx].
      * now apply (Hsel x Hx).
      * specialize (Habove x Hx m' eq_refl).
        assert (Hdlin : In dl docs)
          by (rewrite Hdocs; apply in_or_app; right; now left).
        pose proof (proj2 (proj2 (Hsel dl Hdlin)) m eq_refl). lia.
    + intros d Hd Hdsel Hun. apply in_or_app.
      assert (Hdfound : In d found).
      { unfold found, Loki.find. apply filter_In. split; [exact Hd|].
        now apply matches_selected. }
      rewrite Hsplit in Hdfound. apply in_app_or in Hdfound as [Hin|Hlater].
      * left. now rewrite Hdocs.
      * right. apply Hfound'.
        -- apply Hkeep; [exact Hd|]. intros op Hop.
           destruct between as [|ops between']; [destruct Hop|].
           apply (Hun ops); [now left|exact Hop].
        -- destruct Hdsel as (Hi & Ht & _). split; [exact Hi|].
           split; [exact Ht|]. intros m [= <-]. subst m'.
           rewrite Hsplit in Hsfound.
           apply (sorted_app_lt _ _ dl d Hsfound); [|exact Hlater].
           apply in_or_app. right. now left.
        -- intros ops Hops. apply Hun.
           destruct between as [|ops0 between']; [destruct Hops|now right].
  - (* the page without marker ends the enumeration *)
    injection Hrun as <-.
    pose proof (listExtents_None_all _ _ _ _ _ _ _ _ Hdb Hpage) as ->.
    split; [|split].
    + apply sorted_filter. now destruct Hwf.
    + intros x Hx m ->. unfold Loki.find in Hx. apply filter_In in Hx as [_ Hx].
      apply matches_selected in Hx. now apply (proj2 (proj2 Hx)).
    + intros d Hd Hdsel _. unfold Loki.find. apply filter_In.
      split; [exact Hd|]. now apply matches_selected.
Qed.

(** With nothing happening between the calls, the enumeration is the one
    on an unchanged catalog. *)
Lemma listAllPagesDuring_quiet (fuel : nat) :
  forall (between : list (list CatalogOp)) (marker : option Z)
         (this : LokiExtentMetadata),
    Forall (fun ops => ops = []) between ->
    listAllPagesDuring fuel between id maxResults marker queryTime
      UnmodifiedTime this
    = listAllPages fuel id maxResults marker queryTime UnmodifiedTime this.
Proof.
  induction fuel as [|fuel IH]; intros between marker this Hquiet;
    [reflexivity|].
  simpl.
  destruct (listExtents id maxResults marker queryTime UnmodifiedTime this)
    as [[docs [m'|]]|e]; try reflexivity.
  assert (Hhd : hd [] between = []).
  { destruct Hquiet as [|ops between' Hops _]; [reflexivity|exact Hops]. }
  assert (Htl : Forall (fun ops => ops = []) (tail between)).
  { destruct Hquiet as [|ops between' _ Hrest]; [constructor|exact Hrest]. }
  rewrite Hhd. cbn [runOps fold_left]. now rewrite (IH _ _ _ Htl).
Qed.

(** With a positive page limit the enumeration always ends: every page
    that carries a marker moves the marker up, and the operations in
    between raise [maxId] by at most one each. *)
Lemma listAllPagesDuring_ends (fuel : nat) :
  forall (between : list (list CatalogOp)) (marker : option Z)
         (this : LokiExtentMetadata) (coll : Loki.Collection),
    db this = Some coll -> wf coll -> 1 <= default 5000 maxResults ->
    0 <= default 0 marker ->
    (Z.to_nat (Loki.maxId coll - default 0 marker)%Z
     + length (concat between) < fuel)%nat ->
    exists all,
      listAllPagesDuring fuel between id maxResults marker queryTime
        UnmodifiedTime this = Some (Ok all).
Proof.
  induction fuel as [|fuel IH];
    intros between marker this coll Hdb Hwf Hlimit Hmarker Hfuel; [lia|].
  simpl.
  destruct (listExtents_page id maxResults marker queryTime UnmodifiedTime
              this coll Hdb Hlimit)
    as [[_ Hrun]|(_ & front & d & Hfront & Hrun)]; rewrite Hrun.
  - eexists. reflexivity.
  - destruct (runOps_keeps (hd [] between) this coll Hdb Hwf)
      as (coll' & Hdb' & Hwf' & _).
    pose proof (runOps_maxId (hd [] between) this coll coll' Hdb Hwf Hdb')
      as Hmax.
    assert (Hd : In d (Loki.find
                         (listExtents_query id marker queryTime UnmodifiedTime)
                         coll)).
    { apply (In_firstn (Z.to_nat (default 5000 maxResults))).
      rewrite Hfront. apply in_or_app. right. now left. }
    unfold Loki.find in Hd. apply filter_In in Hd as [Hdin Hdm].
    apply matches_selected in Hdm. destruct Hdm as (_ & _ & Hdabove).
    assert (Hbound : 1 <= Loki.loki d <= Loki.maxId coll).
    { destruct Hwf as (_ & _ & Hb & _). rewrite List.Forall_forall in Hb.
      now apply Hb. }
    assert (Hup : default 0 marker < Loki.loki d).
    { destruct marker as [m|]; simpl; [now apply Hdabove|lia]. }
    assert (Hlen : length (concat between)
                   = (length (hd [] between) + length (concat (tail between)))%nat).
    { destruct between as [|ops between']; simpl; [reflexivity|].
      now rewrite length_app. }
    destruct (IH (tail between) (Some (Loki.loki d))
                (runOps (hd [] between) this) coll' Hdb' Hwf' Hlimit)
      as [rest Hrest].
    + simpl. lia.
    + simpl. lia.
    + rewrite Hrest. eexists. reflexivity.
Qed.

End Interleaved.

(** C3 (as amended): on a well-formed catalog, with a positive (or
    omitted) page limit and integer millisecond values in the range
    where the age threshold is computed exactly, the enumeration started
    without marker always ends.  When no operation runs between its
    calls it ends within [length data + 1] calls and its pages hold
    exactly the records selected by the filter, each once.  When updates
    and deletes of other requests run between the calls it still returns
    no stored record twice (sequence numbers strictly increase), and it
    returns every record that was selected when it began and that no
    operation has updated or deleted since. *)
Theorem listAllPages_complete (id : option string)
    (maxResults queryTime UnmodifiedTime : option Z)
    (this : LokiExtentMetadata) (coll : Loki.Collection) :
  db this = Some coll -> wf coll ->
  1 <= default 5000 maxResults ->
  age_filter_exact queryTime UnmodifiedTime coll ->
  (forall fuel between,
     (length (Loki.data coll) < fuel)%nat ->
     Forall (fun ops => ops = []) between ->
     exists all,
       listAllPagesDuring fuel between id maxResults None queryTime
         UnmodifiedTime this = Some (Ok all)
       /\ (forall d, In d all <->
                     In d (Loki.data coll)
                     /\ selected id None queryTime UnmodifiedTime d)
       /\ NoDup all)
  /\ (forall fuel between,
        (Z.to_nat (Loki.maxId coll) + length (concat between) < fuel)%nat ->
        exists all,
          listAllPagesDuring fuel between id maxResults None queryTime
            UnmodifiedTime this = Some (Ok all)
          /\ StronglySorted loki_lt all
          /\ NoDup all
          /\ (forall d, In d (Loki.data coll) ->
                selected id None queryTime UnmodifiedTime d ->
                untouched d between -> In d all)).
Proof.
  intros Hdb Hwf Hlimit _. split.
  - intros fuel between Hfuel Hquiet.
    rewrite (listAllPagesDuring_quiet id maxResults queryTime UnmodifiedTime
               fuel between None this Hquiet).
    now apply (listAllPages_unchanged_catalog id maxResults queryTime
                 UnmodifiedTime this coll fuel).
  - intros fuel between Hfuel.
    destruct (listAllPagesDuring_ends id maxResults queryTime UnmodifiedTime
                fuel between None this coll Hdb Hwf Hlimit)
      as [all Hrun].
    + simpl. lia.
    + simpl. rewrite Z.sub_0_r. exact Hfuel.
    + exists all. split; [exact Hrun|].
      destruct (listAllPagesDuring_sound id maxResults queryTime
                  UnmodifiedTime fuel between None this coll all Hdb Hwf Hrun)
        as (Hsorted & _ & Hfound).
      split; [exact Hsorted|]. split; [now apply sorted_NoDup|exact Hfound].
Qed.

Lemma age_filter_exact_none coll : age_filter_exact None None coll.
Proof. intros getTime [=]. Qed.

Lemma listAllPages_complete_witness :
  (exists all,
     listAllPagesDuring 3 [] None (Some 1) None None None catalog12
     = Some (Ok all)
     /\ (forall d, In d all <->
                   In d (Loki.data coll12) /\ selected None None None None d)
     /\ NoDup all)
  /\ (exists all,
        listAllPagesDuring 4 [[OpDeleteExtent "e2"]] None (Some 1) None None
          None catalog12 = Some (Ok all)
        /\ In {| Loki.obj := extent1; Loki.loki := 1 |} all).
Proof.
  destruct (listAllPages_complete None (Some 1) None None catalog12 coll12
              eq_refl wf_coll12 ltac:(simpl; lia) (age_filter_exact_none coll12))
    as [Hquiet Hbusy].
  split.
  - apply (Hquiet 3%nat []); [simpl; lia|constructor].
  - destruct (Hbusy 4%nat [[OpDeleteExtent "e2"]] ltac:(simpl; lia))
      as (all & Hrun & _ & _ & Hfound).
    exists all. split; [exact Hrun|].
    apply Hfound.
    + simpl. now left.
    + repeat split; intros ? [=].
    + intros ops [<-|[]] op [<-|[]]. discriminate.
Defined.

(** C3 (as stated) fails.  With page limit 1, [deleteExtent("e2")]
    running between the first and the second call makes the enumeration
    end without the record of e2, which was selected when the
    enumeration began; and with page limit 0 the enumeration ends in a
    [TypeError] instead of a result. *)
Lemma enumeration_loses_deleted_record :
  listAllPagesDuring 3 [[OpDeleteExtent "e2"]] None (Some 1) None None None
    catalog12
  = Some (Ok [ {| Loki.obj := extent1; Loki.loki := 1 |} ])
  /\ In {| Loki.obj := extent2; Loki.loki := 2 |}
       (unpaged None None None coll12)
  /\ listAllPagesDuring 3 [] None (Some 0) None None None catalog12
     = Some (Throw TypeError).
Proof.
  split; [reflexivity|]. split; [|reflexivity].
  simpl. right. now left.
Qed.

(* ===================================================================== *)
(** * Further properties of the service handler                           *)
(* ===================================================================== *)

Lemma js_or_idem {A} (a b : option A) : js_or a (js_or a b) = js_or a b.
Proof. now destruct a. Qed.

Lemma js_or_string_idem a b :
  js_or_string a (js_or_string a b) = js_or_string a b.
Proof.
  destruct a as [s|]; simpl; [|reflexivity].
  destruct (String.eqb s "") eqn:E; simpl; rewrite ?E; reflexivity.
Qed.

Lemma js_or_is_Some {A} (a b : option A) : is_Some b -> is_Some (js_or a b).
Proof. destruct a; simpl; eauto. Qed.

Lemma js_or_string_is_Some a b : is_Some b -> is_Some (js_or_string a b).
Proof.
  destruct a as [s|]; simpl; [|eauto].
  destruct (String.eqb s ""); eauto.
Qed.

Lemma mergeProperties_idem req parsedBody old account :
  mergeProperties req parsedBody (mergeProperties req parsedBody old account)
    account
  = mergeProperties req parsedBody old account.
Proof.
  unfold mergeProperties; simpl.
  rewrite !js_or_idem, js_or_string_idem. f_equal.
  destruct (negb (hasOwnProperty parsedBody "cors")
            && negb (hasOwnProperty parsedBody "Cors")); [reflexivity|].
  now destruct (SSP.cors req).
Qed.

Lemma mergeProperties_settled req parsedBody old account :
  settled account old ->
  settled account (mergeProperties req parsedBody old account).
Proof.
  intros (_ & Hc & Hv & Hh & Hl & Hm & Hs).
  unfold settled, mergeProperties; simpl.
  split; [reflexivity|]. split.
  { destruct (negb (hasOwnProperty parsedBody "cors")
              && negb (hasOwnProperty parsedBody "Cors")); [exact Hc|].
    destruct (SSP.cors req); eauto. }
  split; [now apply js_or_string_is_Some|].
  repeat split; now apply js_or_is_Some.
Qed.

Section ServiceHandlerMore.

Variable BLOB_API_VERSION : string.

Lemma defaultServiceProperties_settled account :
  settled account (defaultServiceProperties BLOB_API_VERSION account).
Proof. unfold settled; simpl. repeat split; eauto. Qed.

(** X16: a request that supplies every member, with a Cors element in
    the body and a non-empty default service version, is read back
    unchanged by [getProperties], whatever was stored before. *)
Theorem setProperties_then_getProperties
    (c : list CorsRule.t) (v : string) (drp : RetentionPolicy.t)
    (hm mm : Metrics.t) (lg : Logging.t) (sw : StaticWebsite.t)
    (parsedBody : list string) (account contextID contextID' : string)
    (store : gmap string SPM.t) :
  hasOwnProperty parsedBody "cors" || hasOwnProperty parsedBody "Cors" = true ->
  v <> "" ->
  getProperties BLOB_API_VERSION account contextID'
    (fst (setProperties BLOB_API_VERSION
            {| SSP.cors := Some c; SSP.defaultServiceVersion := Some v;
               SSP.deleteRetentionPolicy := Some drp;
               SSP.hourMetrics := Some hm; SSP.logging := Some lg;
               SSP.minuteMetrics := Some mm; SSP.staticWebsite := Some sw |}
            parsedBody account contextID store))
  = {| ServiceGetPropertiesResponse.accountName := account;
       ServiceGetPropertiesResponse.cors := Some c;
       ServiceGetPropertiesResponse.defaultServiceVersion := Some v;
       ServiceGetPropertiesResponse.deleteRetentionPolicy := Some drp;
       ServiceGetPropertiesResponse.hourMetrics := Some hm;
       ServiceGetPropertiesResponse.logging := Some lg;
       ServiceGetPropertiesResponse.minuteMetrics := Some mm;
       ServiceGetPropertiesResponse.staticWebsite := Some sw;
       ServiceGetPropertiesResponse.requestId := contextID';
       ServiceGetPropertiesResponse.statusCode := 200;
       ServiceGetPropertiesResponse.version := BLOB_API_VERSION |}.
Proof.
  intros Hcors Hv. rewrite setProperties_store.
  unfold getProperties, getServiceProperties. rewrite lookup_insert_eq.
  unfold mergeProperties; simpl.
  assert (Ev : String.eqb v "" = false) by now apply String.eqb_neq.
  rewrite Ev.
  assert (Ec : negb (hasOwnProperty parsedBody "cors")
               && negb (hasOwnProperty parsedBody "Cors") = false).
  { rewrite <- negb_orb, Hcors. reflexivity. }
  now rewrite Ec.
Qed.

(** X17: [setProperties] is idempotent: sending the same request twice
    leaves the store as the first request left it. *)
Theorem setProperties_idempotent (req : SSP.t) (parsedBody : list string)
    (account contextID contextID' : string) (store : gmap string SPM.t) :
  fst (setProperties BLOB_API_VERSION req parsedBody account contextID'
         (fst (setProperties BLOB_API_VERSION req parsedBody account contextID
                 store)))
  = fst (setProperties BLOB_API_VERSION req parsedBody account contextID store).
Proof.
  rewrite !setProperties_store, lookup_insert_eq, mergeProperties_idem.
  apply insert_insert_eq.
Qed.

(** X18: every document that a sequence of [setProperties] requests
    leaves in an initially empty store is filed under its own account
    name and has its CORS rules, default service version, hour metrics,
    logging, minute metrics and static-website members defined: no
    request can remove one of them. *)
Theorem runSetProperties_settled (reqs : list SetRequest) (account : string)
    (p : SPM.t) :
  runSetProperties BLOB_API_VERSION reqs ∅ !! account = Some p ->
  settled account p.
Proof.
  assert (Hgen : forall (store : gmap string SPM.t),
             (forall a q, store !! a = Some q -> settled a q) ->
             forall a q,
               runSetProperties BLOB_API_VERSION reqs store !! a = Some q ->
               settled a q).
  { unfold runSetProperties.
    induction reqs as [|r reqs IH]; intros store Hinv; cbn [fold_left];
      [exact Hinv|].
    apply IH. intros a q. rewrite setProperties_store.
    destruct (decide (req_account r = a)) as [<-|Hne].
    - rewrite lookup_insert_eq. intros [= <-].
      apply mergeProperties_settled.
      destruct (store !! req_account r) as [old|] eqn:E.
      + now apply Hinv.
      + apply defaultServiceProperties_settled.
    - rewrite lookup_insert_ne by exact Hne. apply Hinv. }
  apply Hgen. intros a q Hq. rewrite lookup_empty in Hq. discriminate.
Qed.

(** X19: a request that supplies nothing (no member, or an empty default
    service version, and no CORS rules or no Cors element in the body)
    changes no answer of [getProperties], for any account, provided the
    account's document is filed under its own name. *)
Theorem setProperties_nothing_supplied (v : option string)
    (c : option (list CorsRule.t)) (parsedBody : list string)
    (account contextID other contextID' : string)
    (store : gmap string SPM.t) :
  (forall p, store !! account = Some p -> SPM.accountName p = account) ->
  v = None \/ v = Some "" ->
  c = None
  \/ hasOwnProperty parsedBody "cors" || hasOwnProperty parsedBody "Cors"
     = false ->
  getProperties BLOB_API_VERSION other contextID'
    (fst (setProperties BLOB_API_VERSION
            {| SSP.cors := c; SSP.defaultServiceVersion := v;
               SSP.deleteRetentionPolicy := None; SSP.hourMetrics := None;
               SSP.logging := None; SSP.minuteMetrics := None;
               SSP.staticWebsite := None |}
            parsedBody account contextID store))
  = getProperties BLOB_API_VERSION other contextID' store.
Proof.
  intros Hkey Hv Hc. rewrite setProperties_store.
  unfold getProperties, getServiceProperties.
  destruct (decide (account = other)) as [<-|Hne];
    [|now rewrite lookup_insert_ne].
  rewrite lookup_insert_eq.
  set (old := match store !! account with
              | Some p => p
              | None => defaultServiceProperties BLOB_API_VERSION account
              end).
  assert (Hname : SPM.accountName old = account).
  { unfold old. destruct (store !! account) as [p|] eqn:E;
      [now apply Hkey|reflexivity]. }
  assert (Hmerge :
            mergeProperties
              {| SSP.cors := c; SSP.defaultServiceVersion := v;
                 SSP.deleteRetentionPolicy := None; SSP.hourMetrics := None;
                 SSP.logging := None; SSP.minuteMetrics := None;
                 SSP.staticWebsite := None |} parsedBody old account = old).
  { unfold mergeProperties; simpl. destruct old; simpl in *. subst.
    f_equal.
    - destruct Hc as [-> | Hc].
      + now destruct (negb _ && negb _).
      + rewrite <- negb_orb, Hc. reflexivity.
    - now destruct Hv as [-> | ->]. }
  now rewrite Hmerge.
Qed.

End ServiceHandlerMore.

Lemma setProperties_then_getProperties_witness :
  ServiceGetPropertiesResponse.cors
    (getProperties "2019-02-02" "devstoreaccount1" "ctx-6"
       (fst (setProperties "2019-02-02"
               {| SSP.cors := Some []; SSP.defaultServiceVersion := Some "2018-03-28";
                  SSP.deleteRetentionPolicy :=
                    Some {| RetentionPolicy.enabled := true |};
                  SSP.hourMetrics :=
                    Some {| Metrics.enabled := true;
                            Metrics.retentionPolicy :=
                              {| RetentionPolicy.enabled := false |};
                            Metrics.version := "1.0" |};
                  SSP.logging :=
                    Some {| Logging.deleteProperty := false;
                            Logging.read := false;
                            Logging.retentionPolicy :=
                              {| RetentionPolicy.enabled := false |};
                            Logging.version := "1.0";
                            Logging.write := false |};
                  SSP.minuteMetrics :=
                    Some {| Metrics.enabled := true;
                            Metrics.retentionPolicy :=
                              {| RetentionPolicy.enabled := false |};
                            Metrics.version := "1.0" |};
                  SSP.staticWebsite :=
                    Some {| StaticWebsite.enabled := true |} |}
               ["Cors"] "devstoreaccount1" "ctx-5"
               {[ "devstoreaccount1" := storedDoc ]})))
  = Some [].
Proof.
  rewrite (setProperties_then_getProperties "2019-02-02" [] "2018-03-28");
    [reflexivity|reflexivity|discriminate].
Defined.

Lemma runSetProperties_settled_witness :
  exists p,
    runSetProperties "2019-02-02" [otherAccountRequest] ∅ !! "other" = Some p
    /\ settled "other" p.
Proof.
  assert (Hp : runSetProperties "2019-02-02" [otherAccountRequest] ∅ !! "other"
               = Some (mergeProperties blankVersionRequest ["Cors"]
                         (defaultServiceProperties "2019-02-02" "other")
                         "other")).
  { unfold runSetProperties. cbn [fold_left]. rewrite setProperties_store.
    now rewrite lookup_insert_eq, lookup_empty. }
  eexists. split; [exact Hp|].
  exact (runSetProperties_settled "2019-02-02" [otherAccountRequest] "other" _ Hp).
Defined.

Lemma setProperties_nothing_supplied_witness :
  getProperties "2019-02-02" "devstoreaccount1" "ctx-8"
    (fst (setProperties "2019-02-02" blankVersionRequest ["Logging"]
            "devstoreaccount1" "ctx-7" {[ "devstoreaccount1" := storedDoc ]}))
  = getProperties "2019-02-02" "devstoreaccount1" "ctx-8"
      {[ "devstoreaccount1" := storedDoc ]}.
Proof.
  apply (setProperties_nothing_supplied "2019-02-02" (Some "") None ["Logging"]).
  - intros p. rewrite lookup_singleton_eq. now intros [= <-].
  - now right.
  - now left.
Defined.

(* ===================================================================== *)
(** * Listing containers                                                  *)
(* ===================================================================== *)

Section ListContainersFacts.

Variable BLOB_API_VERSION : string.
Variable ContainerItem : Type.
Variable listContainers :
  string -> string -> Z -> option Z -> list ContainerItem * option Z.
Variable parseInt : string -> option Z.
Variable numberToString : Z -> string.

Local Abbreviation listSegment :=
  (listContainersSegment BLOB_API_VERSION ContainerItem listContainers
     parseInt numberToString).

(** X20: [listContainersSegment] cannot tell an omitted option from its
    falsy value: a page size of 0 is served like an omitted one, with
    2000; an empty marker like an omitted one, from marker "0"; an
    omitted prefix like the empty prefix.  The page size reported in the
    response is never 0. *)
Theorem listContainersSegment_defaults (options : LCO.t)
    (endpoint accountName contextID : string) :
  listSegment options endpoint accountName contextID
  = listSegment
      {| LCO.prefix := Some (default "" (LCO.prefix options));
         LCO.marker :=
           Some match LCO.marker options with
                | Some "" | None => "0"
                | Some s => s
                end;
         LCO.maxresults :=
           Some match LCO.maxresults options with
                | Some 0 | None => 2000
                | Some n => n
                end |}
      endpoint accountName contextID
  /\ LCR.maxResults (listSegment options endpoint accountName contextID) <> 0.
Proof.
  destruct options as [prefix marker maxresults].
  unfold listContainersSegment, js_or_number, js_or_text,
    LIST_CONTAINERS_MAX_RESULTS_DEFAULT; simpl.
  split.
  - destruct prefix as [[|a p]|], marker as [[|b m]|],
      maxresults as [[|n|n]|]; reflexivity.
  - destruct maxresults as [[|n|n]|]; simpl; discriminate.
Qed.

(** X21: paging through containers.  When the store reports a next
    marker [n] that is not 0, the response carries it as text, and a
    request that passes this text back asks the store for the page at
    [n] (as long as [parseInt] reads the text back as [n]).  When the
    store reports no next marker, or 0, the response's [nextMarker] is
    empty, and a request that passes it back is served like one without
    marker: the listing starts over. *)
Theorem listContainersSegment_continuation (options : LCO.t)
    (endpoint accountName contextID contextID' : string) :
  let prefix := js_or_text (LCO.prefix options) "" in
  let maxresults := js_or_number (LCO.maxresults options) 2000 in
  let next :=
    snd (listContainers accountName prefix maxresults
           (parseInt (js_or_text (LCO.marker options) "0"))) in
  let first := listSegment options endpoint accountName contextID in
  let second :=
    listSegment
      {| LCO.prefix := LCO.prefix options;
         LCO.marker := Some (LCR.nextMarker first);
         LCO.maxresults := LCO.maxresults options |}
      endpoint accountName contextID' in
  (forall n, next = Some n -> n <> 0 ->
     numberToString n <> "" -> parseInt (numberToString n) = Some n ->
     LCR.nextMarker first = numberToString n
     /\ LCR.containerItems second
        = fst (listContainers accountName prefix maxresults (Some n)))
  /\ (next = None \/ next = Some 0 ->
      LCR.nextMarker first = ""
      /\ second
         = listSegment
             {| LCO.prefix := LCO.prefix options;
                LCO.marker := None;
                LCO.maxresults := LCO.maxresults options |}
             endpoint accountName contextID').
Proof.
  intros prefix maxresults next first second.
  assert (Hfirst : LCR.nextMarker first
                   = match next with
                     | Some n => if n =? 0 then "" else numberToString n
                     | None => ""
                     end) by reflexivity.
  split.
  - intros n Hnext Hn Htext Hparse.
    assert (En : (n =? 0) = false) by now apply Z.eqb_neq.
    rewrite Hnext, En in Hfirst. split; [exact Hfirst|].
    assert (Et : String.eqb (numberToString n) "" = false)
      by now apply String.eqb_neq.
    unfold second. rewrite Hfirst. unfold listContainersSegment.
    cbn [LCR.containerItems LCO.marker LCO.prefix LCO.maxresults].
    unfold js_or_text at 2. rewrite Et, Hparse. reflexivity.
  - intros Hend.
    assert (Hempty : LCR.nextMarker first = "").
    { rewrite Hfirst. now destruct Hend as [-> | ->]. }
    split; [exact Hempty|].
    unfold second. now rewrite Hempty.
Qed.

End ListContainersFacts.

Lemma listContainersSegment_continuation_witness :
  LCR.nextMarker
    (listContainersSegment "2019-02-02" string
       (fun _ _ _ marker =>
          match marker with
          | Some 0 => (["a"; "b"], Some 2)
          | _ => (["c"], None)
          end)
       (fun s => if String.eqb s "2" then Some 2 else Some 0)
       (fun _ => "2")
       {| LCO.prefix := None; LCO.marker := None; LCO.maxresults := Some 2 |}
       "http://127.0.0.1:10000" "devstoreaccount1" "ctx-9")
  = "2"
  /\ LCR.containerItems
       (listContainersSegment "2019-02-02" string
          (fun _ _ _ marker =>
             match marker with
             | Some 0 => (["a"; "b"], Some 2)
             | _ => (["c"], None)
             end)
          (fun s => if String.eqb s "2" then Some 2 else Some 0)
          (fun _ => "2")
          {| LCO.prefix := None; LCO.marker := Some "2";
             LCO.maxresults := Some 2 |}
          "http://127.0.0.1:10000" "devstoreaccount1" "ctx-10")
     = ["c"].
Proof.
  destruct (listContainersSegment_continuation "2019-02-02" string
              (fun _ _ _ marker =>
                 match marker with
                 | Some 0 => (["a"; "b"], Some 2)
                 | _ => (["c"], None)
                 end)
              (fun s => if String.eqb s "2" then Some 2 else Some 0)
              (fun _ => "2")
              {| LCO.prefix := None; LCO.marker := None;
                 LCO.maxresults := Some 2 |}
              "http://127.0.0.1:10000" "devstoreaccount1" "ctx-9" "ctx-10")
    as [Hnext _].
  destruct (Hnext 2 eq_refl ltac:(discriminate) ltac:(discriminate) eq_refl)
    as [Hmarker Hitems].
  split; [exact Hmarker|exact Hitems].
Defined.
